(** * parseAWSExports: translation of a legacy Amplify configuration

    A shallow embedding of [parseAWSExports] and of its helpers
    [getRedirectUrl], [getOAuthConfig] and [parseSocialProviders], together
    with the fragment of JavaScript they run on: untyped values, own
    properties, the members inherited from [Object.prototype], truthiness,
    property-key conversion, object spread and the few built-in methods the
    translation calls.

    Modelling choices.
    - Strings are ASCII strings; [toLowerCase] and [toUpperCase] act on the
      letters A-Z and a-z.
    - Numbers are the integer-valued ones, as [Z], printed in decimal.
    - An object is the association list of its own enumerable properties in
      insertion order, the order in which JavaScript enumerates keys that
      are not array indices; its prototype is [Object.prototype].
    - Arrays and objects of the input are only read, never mutated, so they
      are values and not references.
    - An evaluation ends in [Return], in [Throw], or in [Unmodelled] when it
      reaches one of the conversions left out: calling a function object
      stored in the input, printing a function, and parsing a string (or
      converting an array or object) to a number in [length > 0]. *)

From Stdlib Require Import List String Ascii ZArith Bool Lia.
From Stdlib Require Import Numbers.DecimalString.
Import ListNotations.
Local Open Scope string_scope.
Local Open Scope list_scope.
Local Set Warnings "-register-all".

(** ** Values *)

(** The members of [Object.prototype]: eleven functions and the accessor
    [__proto__], whose value read through an ordinary object is
    [Object.prototype] itself. *)
Inductive builtin : Type :=
| Object_constructor
| Object_defineGetter
| Object_defineSetter
| Object_hasOwnProperty
| Object_lookupGetter
| Object_lookupSetter
| Object_isPrototypeOf
| Object_propertyIsEnumerable
| Object_toString
| Object_valueOf
| Object_toLocaleString
| Object_prototype.

Inductive value : Type :=
| VUndef
| VNull
| VBool (b : bool)
| VNum (z : Z)
| VStr (s : string)
| VArr (l : list value)
| VObj (o : list (string * value))
| VBuiltin (b : builtin).

(** [Record<string, any>] *)
Definition obj : Type := list (string * value).

Inductive exn : Type :=
| AmplifyError (name message recoverySuggestion : string)
| TypeError.

Inductive completion (A : Type) : Type :=
| Return (a : A)
| Throw (e : exn)
| Unmodelled.
Arguments Return {A} a.
Arguments Throw {A} e.
Arguments Unmodelled {A}.

Definition cbind {A B} (c : completion A) (f : A -> completion B) : completion B :=
  match c with
  | Return a => f a
  | Throw e => Throw e
  | Unmodelled => Unmodelled
  end.

Declare Scope js_scope.
Delimit Scope js_scope with js.
Notation "x <- c ;; k" := (cbind c (fun x => k))
  (at level 61, c at next level, right associativity) : js_scope.
Local Open Scope js_scope.

(** [mapM f l]: [l.map(f)] for a callback that may throw. *)
Fixpoint mapM {A B} (f : A -> completion B) (l : list A) : completion (list B) :=
  match l with
  | [] => Return []
  | a :: l' => b <- f a ;; bs <- mapM f l' ;; Return (b :: bs)
  end.

(** [foldM f l acc]: [l.reduce(f, acc)] for a callback that may throw. *)
Fixpoint foldM {A B} (f : B -> A -> completion B) (l : list A) (acc : B) : completion B :=
  match l with
  | [] => Return acc
  | a :: l' => acc' <- f acc a ;; foldM f l' acc'
  end.

(** ** Strings *)

Definition comma : ascii := ","%char.

Definition lower_char (c : ascii) : ascii :=
  let n := nat_of_ascii c in
  if (65 <=? n)%nat && (n <=? 90)%nat then ascii_of_nat (n + 32) else c.

Definition upper_char (c : ascii) : ascii :=
  let n := nat_of_ascii c in
  if (97 <=? n)%nat && (n <=? 122)%nat then ascii_of_nat (n - 32) else c.

(** [s.toLowerCase()] and [s.toUpperCase()] *)
Fixpoint toLowerCase (s : string) : string :=
  match s with
  | EmptyString => EmptyString
  | String c r => String (lower_char c) (toLowerCase r)
  end.

Fixpoint toUpperCase (s : string) : string :=
  match s with
  | EmptyString => EmptyString
  | String c r => String (upper_char c) (toUpperCase r)
  end.

(** [s.charAt(0)] and [s.slice(1)] *)
Definition charAt0 (s : string) : string :=
  match s with
  | EmptyString => EmptyString
  | String c _ => String c EmptyString
  end.

Definition slice1 (s : string) : string :=
  match s with
  | EmptyString => EmptyString
  | String _ r => r
  end.

(** [s.split(',')]: the empty string gives one empty piece. *)
Fixpoint split_comma (s : string) : list string :=
  match s with
  | EmptyString => [EmptyString]
  | String c r =>
      if Ascii.eqb c comma then EmptyString :: split_comma r
      else match split_comma r with
           | h :: t => String c h :: t
           | [] => [String c EmptyString]
           end
  end.

(** [s.includes(needle)] on strings: [needle] occurs in [s]. *)
Fixpoint string_includes (needle s : string) : bool :=
  if String.prefix needle s then true
  else match s with
       | EmptyString => false
       | String _ r => string_includes needle r
       end.

(** The characters of a string, as one-character strings. *)
Fixpoint chars (s : string) : list string :=
  match s with
  | EmptyString => []
  | String c r => String c EmptyString :: chars r
  end.

Definition string_of_Z (z : Z) : string := NilZero.string_of_int (Z.to_int z).
Definition string_of_nat (n : nat) : string := string_of_Z (Z.of_nat n).

Fixpoint join (sep : string) (l : list string) : string :=
  match l with
  | [] => EmptyString
  | [s] => s
  | s :: l' => s ++ sep ++ join sep l'
  end.

(** ** Objects and properties *)

(** Own property lookup. *)
Fixpoint get_own (o : obj) (k : string) : option value :=
  match o with
  | [] => None
  | (k', v) :: o' => if String.eqb k' k then Some v else get_own o' k
  end.

(** [Object.prototype.hasOwnProperty.call(o, k)] *)
Definition hasOwnProperty (o : obj) (k : string) : bool :=
  match get_own o k with Some _ => true | None => false end.

(** [o[k] = v]: an existing key keeps its place. *)
Fixpoint set (o : obj) (k : string) (v : value) : obj :=
  match o with
  | [] => [(k, v)]
  | (k', v') :: o' => if String.eqb k' k then (k', v) :: o' else (k', v') :: set o' k v
  end.

(** Copies the listed properties into [target], in order. *)
Definition assign (target : obj) (src : list (string * value)) : obj :=
  fold_left (fun t kv => set t (fst kv) (snd kv)) src target.

(** An object literal whose properties are given in source order. *)
Definition literal (props : list (string * value)) : obj := assign [] props.

Definition objectPrototype (k : string) : option builtin :=
  if String.eqb k "constructor" then Some Object_constructor
  else if String.eqb k "__defineGetter__" then Some Object_defineGetter
  else if String.eqb k "__defineSetter__" then Some Object_defineSetter
  else if String.eqb k "hasOwnProperty" then Some Object_hasOwnProperty
  else if String.eqb k "__lookupGetter__" then Some Object_lookupGetter
  else if String.eqb k "__lookupSetter__" then Some Object_lookupSetter
  else if String.eqb k "isPrototypeOf" then Some Object_isPrototypeOf
  else if String.eqb k "propertyIsEnumerable" then Some Object_propertyIsEnumerable
  else if String.eqb k "toString" then Some Object_toString
  else if String.eqb k "valueOf" then Some Object_valueOf
  else if String.eqb k "toLocaleString" then Some Object_toLocaleString
  else if String.eqb k "__proto__" then Some Object_prototype
  else None.

(** [o[k]] on an ordinary object: the own property, else the member of
    [Object.prototype], else [undefined]. *)
Definition get (o : obj) (k : string) : value :=
  match get_own o k with
  | Some v => v
  | None => match objectPrototype k with
            | Some b => VBuiltin b
            | None => VUndef
            end
  end.

(** The [name] and [length] own properties of the built-in functions. *)
Definition builtin_name (b : builtin) : value :=
  match b with
  | Object_constructor => VStr "Object"
  | Object_defineGetter => VStr "__defineGetter__"
  | Object_defineSetter => VStr "__defineSetter__"
  | Object_hasOwnProperty => VStr "hasOwnProperty"
  | Object_lookupGetter => VStr "__lookupGetter__"
  | Object_lookupSetter => VStr "__lookupSetter__"
  | Object_isPrototypeOf => VStr "isPrototypeOf"
  | Object_propertyIsEnumerable => VStr "propertyIsEnumerable"
  | Object_toString => VStr "toString"
  | Object_valueOf => VStr "valueOf"
  | Object_toLocaleString => VStr "toLocaleString"
  | Object_prototype => VUndef
  end.

Definition builtin_length (b : builtin) : value :=
  match b with
  | Object_constructor => VNum 1
  | Object_defineGetter | Object_defineSetter => VNum 2
  | Object_hasOwnProperty | Object_lookupGetter | Object_lookupSetter
  | Object_isPrototypeOf | Object_propertyIsEnumerable => VNum 1
  | Object_toString | Object_valueOf | Object_toLocaleString => VNum 0
  | Object_prototype => VUndef
  end.

(** [IsCallable] *)
Definition callable (v : value) : bool :=
  match v with
  | VBuiltin Object_prototype => false
  | VBuiltin _ => true
  | _ => false
  end.

(** Truthiness. *)
Definition truthy (v : value) : bool :=
  match v with
  | VUndef | VNull => false
  | VBool b => b
  | VNum z => negb (Z.eqb z 0)
  | VStr s => negb (String.eqb s "")
  | VArr _ | VObj _ | VBuiltin _ => true
  end.

Definition nullish (v : value) : bool :=
  match v with
  | VUndef | VNull => true
  | _ => false
  end.

(** [a ?? b] *)
Definition coalesce (a b : value) : value := if nullish a then b else a.

(** [v?.k], for the property names the translation reads: [length] and names
    that are neither an array index nor a member of [String.prototype],
    [Array.prototype], [Number.prototype], [Boolean.prototype] or
    [Function.prototype]. *)
Definition optProp (v : value) (k : string) : value :=
  match v with
  | VUndef | VNull => VUndef
  | VBool _ | VNum _ => VUndef
  | VStr s => if String.eqb k "length" then VNum (Z.of_nat (String.length s)) else VUndef
  | VArr l => if String.eqb k "length" then VNum (Z.of_nat (List.length l)) else VUndef
  | VObj o => get o k
  | VBuiltin b =>
      if String.eqb k "length" then builtin_length b
      else if String.eqb k "name" then builtin_name b
      else VUndef
  end.

(** [v.k], and each name of a destructuring [const {k} = v]: reading a
    property of [undefined] or [null] throws. *)
Definition getProp (v : value) (k : string) : completion value :=
  if nullish v then Throw TypeError else Return (optProp v k).

(** [target.k = x] on the objects the translation has built itself. *)
Definition setProp (target : value) (k : string) (x : value) : completion value :=
  match target with
  | VObj o => Return (VObj (set o k x))
  | VUndef | VNull | VBool _ | VNum _ | VStr _ => Throw TypeError
  | VArr _ | VBuiltin _ => Unmodelled
  end.

(** The own enumerable string-keyed properties: what [Object.keys]
    enumerates and what a spread [{...v}] copies. *)
Definition indexed (l : list value) : list (string * value) :=
  combine (map string_of_nat (seq 0 (List.length l))) l.

Definition own_entries (v : value) : list (string * value) :=
  match v with
  | VObj o => o
  | VArr l => indexed l
  | VStr s => indexed (map VStr (chars s))
  | VUndef | VNull | VBool _ | VNum _ | VBuiltin _ => []
  end.

(** [Object.keys(v)] *)
Definition Object_keys (v : value) : list string := map fst (own_entries v).

(** [{...target, ...v}] *)
Definition spread (target : obj) (v : value) : obj := assign target (own_entries v).

(** ** Conversions *)

(** [ToString], which is also [ToPropertyKey] on these values.  An array
    joins its elements with commas; an ordinary object goes through its
    [toString] and [valueOf] properties. *)
Fixpoint toString (v : value) : completion string :=
  match v with
  | VUndef => Return "undefined"
  | VNull => Return "null"
  | VBool true => Return "true"
  | VBool false => Return "false"
  | VNum z => Return (string_of_Z z)
  | VStr s => Return s
  | VArr l =>
      parts <- (fix elements (l : list value) : completion (list string) :=
                  match l with
                  | [] => Return []
                  | e :: l' =>
                      s <- (if nullish e then Return "" else toString e) ;;
                      r <- elements l' ;;
                      Return (s :: r)
                  end) l ;;
      Return (join "," parts)
  | VObj o =>
      match get o "toString" with
      | VBuiltin Object_toString => Return "[object Object]"
      | f =>
          if callable f then Unmodelled
          else match get o "valueOf" with
               | VBuiltin Object_valueOf => Throw TypeError
               | g => if callable g then Unmodelled else Throw TypeError
               end
      end
  | VBuiltin Object_prototype => Return "[object Object]"
  | VBuiltin _ => Unmodelled
  end.

(** [v > 0], on the values whose conversion to a number is modelled. *)
Definition gt_zero (v : value) : completion bool :=
  match v with
  | VUndef | VNull => Return false
  | VBool b => Return b
  | VNum z => Return (0 <? z)%Z
  | VStr _ | VArr _ | VObj _ | VBuiltin _ => Unmodelled
  end.

(** [v === 'literal'] *)
Definition is_str (lit : string) (v : value) : bool :=
  match v with
  | VStr s => String.eqb s lit
  | _ => false
  end.

Definition builtin_tag (b : builtin) : nat :=
  match b with
  | Object_constructor => 0 | Object_defineGetter => 1 | Object_defineSetter => 2
  | Object_hasOwnProperty => 3 | Object_lookupGetter => 4 | Object_lookupSetter => 5
  | Object_isPrototypeOf => 6 | Object_propertyIsEnumerable => 7 | Object_toString => 8
  | Object_valueOf => 9 | Object_toLocaleString => 10 | Object_prototype => 11
  end.

(** [SameValueZero], the equality of [Set].  Two occurrences of an array or
    of an object are distinct objects. *)
Definition sameValueZero (a b : value) : bool :=
  match a, b with
  | VUndef, VUndef | VNull, VNull => true
  | VBool x, VBool y => Bool.eqb x y
  | VNum x, VNum y => Z.eqb x y
  | VStr x, VStr y => String.eqb x y
  | VBuiltin x, VBuiltin y => Nat.eqb (builtin_tag x) (builtin_tag y)
  | _, _ => false
  end.

(** [Array.from(new Set(l))]: first occurrences, in order. *)
Definition dedup (l : list value) : list value :=
  fold_left (fun seen x => if existsb (sameValueZero x) seen then seen else seen ++ [x]) l [].

(** [[...v]]: strings and arrays are the iterable values. *)
Definition iterate (v : value) : completion (list value) :=
  match v with
  | VArr l => Return l
  | VStr s => Return (map VStr (chars s))
  | _ => Throw TypeError
  end.

(** ** Method calls *)

(** [recv.name(...)] when the built-in prototype of [recv] has no method
    [name]: only an ordinary object can hold a property of that name, and
    only a function can be called. *)
Definition no_method {A} (recv : value) (name : string) : completion A :=
  match recv with
  | VObj o => if callable (get o name) then Unmodelled else Throw TypeError
  | _ => Throw TypeError
  end.

Definition call_toLowerCase (recv : value) : completion string :=
  match recv with
  | VStr s => Return (toLowerCase s)
  | _ => no_method recv "toLowerCase"
  end.

Definition call_includes (recv : value) (needle : string) : completion bool :=
  match recv with
  | VStr s => Return (string_includes needle s)
  | VArr l => Return (existsb (is_str needle) l)
  | _ => no_method recv "includes"
  end.

(** [recv?.includes(needle) ?? false] *)
Definition opt_includes (recv : value) (needle : string) : completion bool :=
  if nullish recv then Return false else call_includes recv needle.

Definition call_split_comma (recv : value) : completion value :=
  match recv with
  | VStr s => Return (VArr (map VStr (split_comma s)))
  | _ => no_method recv "split"
  end.

Definition call_map (recv : value) (f : value -> completion value) : completion value :=
  match recv with
  | VArr l => r <- mapM f l ;; Return (VArr r)
  | _ => no_method recv "map"
  end.

Definition call_reduce (recv : value) (f : obj -> value -> completion obj) (init : obj)
  : completion obj :=
  match recv with
  | VArr l => foldM f l init
  | _ => no_method recv "reduce"
  end.

(** [Object.fromEntries(entries)] on an array of [[key, value]] pairs. *)
Definition fromEntries (entries : list (value * value)) : completion obj :=
  foldM (fun o kv => key <- toString (fst kv) ;; Return (set o key (snd kv))) entries [].

(** ** Evaluation with a log

    The messages passed to [logger.debug], oldest first, next to the
    completion: a message stays emitted when a later step throws. *)
Definition M (A : Type) : Type := (completion A * list string)%type.

Definition mret {A} (a : A) : M A := (Return a, []).
Definition lift {A} (c : completion A) : M A := (c, []).
Definition debug (msg : string) : M unit := (Return tt, [msg]).

Definition mbind {A B} (m : M A) (f : A -> M B) : M B :=
  match fst m with
  | Return a => (fst (f a), snd m ++ snd (f a))
  | Throw e => (Throw e, snd m)
  | Unmodelled => (Unmodelled, snd m)
  end.

Notation "x <~ c ;; k" := (mbind c (fun x => k))
  (at level 61, c at next level, right associativity) : js_scope.

(** ** The translation *)

Definition authTypeMapping : obj :=
  [ ("API_KEY", VStr "apiKey");
    ("AWS_IAM", VStr "iam");
    ("AMAZON_COGNITO_USER_POOLS", VStr "userPool");
    ("OPENID_CONNECT", VStr "oidc");
    ("NONE", VStr "none");
    ("AWS_LAMBDA", VStr "lambda");
    ("LAMBDA", VStr "lambda") ].

(** [redirectStr?.split(',') ?? []] *)
Definition getRedirectUrl (redirectStr : value) : completion value :=
  if nullish redirectStr then Return (VArr []) else call_split_comma redirectStr.

Definition getOAuthConfig (oauth : value) : completion obj :=
  domain <- getProp oauth "domain" ;;
  scope <- getProp oauth "scope" ;;
  redirectSignIn <- getProp oauth "redirectSignIn" ;;
  redirectSignOut <- getProp oauth "redirectSignOut" ;;
  responseType <- getProp oauth "responseType" ;;
  signIn <- getRedirectUrl redirectSignIn ;;
  signOut <- getRedirectUrl redirectSignOut ;;
  Return (literal [ ("domain", domain);
                    ("scopes", scope);
                    ("redirectSignIn", signIn);
                    ("redirectSignOut", signOut);
                    ("responseType", responseType) ]).

(** The callback of [parseSocialProviders]. *)
Definition titleCase (provider : value) : completion value :=
  updatedProvider <- call_toLowerCase provider ;;
  Return (VStr (toUpperCase (charAt0 updatedProvider) ++ slice1 updatedProvider)).

Definition parseSocialProviders (aws_cognito_social_providers : value) : completion value :=
  call_map aws_cognito_social_providers titleCase.

(** *** Sections of [parseAWSExports]

    Each section reads the fields it needs from [config] and returns the
    [amplifyConfig] it leaves. *)

Definition analyticsSection (config amplifyConfig : obj) : obj :=
  let aws_mobile_analytics_app_id := get config "aws_mobile_analytics_app_id" in
  let aws_mobile_analytics_app_region := get config "aws_mobile_analytics_app_region" in
  if truthy aws_mobile_analytics_app_id then
    set amplifyConfig "Analytics"
      (VObj (literal [ ("Pinpoint",
         VObj (literal [ ("appId", aws_mobile_analytics_app_id);
                         ("region", aws_mobile_analytics_app_region) ])) ]))
  else amplifyConfig.

(** [{ Pinpoint: { appId, region } }] *)
Definition pinpoint (appId region : value) : value :=
  VObj (literal [ ("Pinpoint", VObj (literal [ ("appId", appId); ("region", region) ])) ]).

Definition inAppMessagingStep (InAppMessaging : value) (amplifyConfig : obj) : completion obj :=
  if truthy (optProp InAppMessaging "AWSPinpoint") then
    AWSPinpoint <- getProp InAppMessaging "AWSPinpoint" ;;
    appId <- getProp AWSPinpoint "appId" ;;
    region <- getProp AWSPinpoint "region" ;;
    Return (set amplifyConfig "Notifications"
              (VObj (literal [ ("InAppMessaging", pinpoint appId region) ])))
  else Return amplifyConfig.

Definition pushStep (Push : value) (amplifyConfig : obj) : completion obj :=
  if truthy (optProp Push "AWSPinpoint") then
    AWSPinpoint <- getProp Push "AWSPinpoint" ;;
    appId <- getProp AWSPinpoint "appId" ;;
    region <- getProp AWSPinpoint "region" ;;
    Return (set amplifyConfig "Notifications"
              (VObj (set (spread [] (get amplifyConfig "Notifications"))
                       "PushNotification" (pinpoint appId region))))
  else Return amplifyConfig.

Definition notificationsSection (config amplifyConfig : obj) : completion obj :=
  let Notifications := coalesce (get config "Notifications") (VObj []) in
  InAppMessaging <- getProp Notifications "InAppMessaging" ;;
  Push <- getProp Notifications "Push" ;;
  if truthy (optProp InAppMessaging "AWSPinpoint") || truthy (optProp Push "AWSPinpoint") then
    amplifyConfig <- inAppMessagingStep InAppMessaging amplifyConfig ;;
    pushStep Push amplifyConfig
  else Return amplifyConfig.

Definition interactionsSection (config amplifyConfig : obj) : completion obj :=
  match get config "aws_bots_config" with
  | VArr aws_bots_config =>
      entries <- mapM (fun bot => name <- getProp bot "name" ;; Return (name, bot))
                      aws_bots_config ;;
      LexV1 <- fromEntries entries ;;
      Return (set amplifyConfig "Interactions" (VObj (literal [ ("LexV1", VObj LexV1) ])))
  | _ => Return amplifyConfig
  end.

Definition apiSection (config amplifyConfig : obj) : M obj :=
  let aws_appsync_apiKey := get config "aws_appsync_apiKey" in
  let aws_appsync_authenticationType := get config "aws_appsync_authenticationType" in
  let aws_appsync_graphqlEndpoint := get config "aws_appsync_graphqlEndpoint" in
  let aws_appsync_customEndpoint := get config "aws_appsync_customEndpoint" in
  let aws_appsync_region := get config "aws_appsync_region" in
  let modelIntrospection := get config "modelIntrospection" in
  if truthy aws_appsync_graphqlEndpoint then
    key <~ lift (toString aws_appsync_authenticationType) ;;
    let defaultAuthMode := get authTypeMapping key in
    _ <~ (if negb (truthy defaultAuthMode) then
            shown <~ lift (toString aws_appsync_authenticationType) ;;
            debug ("Invalid authentication type " ++ shown ++ ". Falling back to IAM.")
          else mret tt) ;;
    let GraphQL :=
      literal [ ("endpoint", aws_appsync_graphqlEndpoint);
                ("customEndpoint", aws_appsync_customEndpoint);
                ("apiKey", aws_appsync_apiKey);
                ("region", aws_appsync_region);
                ("defaultAuthMode", coalesce defaultAuthMode (VStr "iam")) ] in
    let GraphQL :=
      if truthy modelIntrospection
      then set GraphQL "modelIntrospection" modelIntrospection
      else GraphQL in
    mret (set amplifyConfig "API" (VObj (literal [ ("GraphQL", VObj GraphQL) ])))
  else mret amplifyConfig.

Definition mfaConfig (config : obj) : completion value :=
  let aws_cognito_mfa_configuration := get config "aws_cognito_mfa_configuration" in
  let aws_cognito_mfa_types := get config "aws_cognito_mfa_types" in
  if truthy aws_cognito_mfa_configuration then
    status <- call_toLowerCase aws_cognito_mfa_configuration ;;
    totpEnabled <- opt_includes aws_cognito_mfa_types "TOTP" ;;
    smsEnabled <- opt_includes aws_cognito_mfa_types "SMS" ;;
    Return (VObj (literal [ ("status", VStr status);
                            ("totpEnabled", VBool totpEnabled);
                            ("smsEnabled", VBool smsEnabled) ]))
  else Return VUndef.

(** [settings.passwordPolicyCharacters?.includes(requirement) ?? false] *)
Definition requires (settings : value) (requirement : string) : completion bool :=
  passwordPolicyCharacters <- getProp settings "passwordPolicyCharacters" ;;
  opt_includes passwordPolicyCharacters requirement.

Definition passwordFormatConfig (config : obj) : completion value :=
  let aws_cognito_password_protection_settings :=
    get config "aws_cognito_password_protection_settings" in
  if truthy aws_cognito_password_protection_settings then
    minLength <- getProp aws_cognito_password_protection_settings "passwordPolicyMinLength" ;;
    requireLowercase <- requires aws_cognito_password_protection_settings "REQUIRES_LOWERCASE" ;;
    requireUppercase <- requires aws_cognito_password_protection_settings "REQUIRES_UPPERCASE" ;;
    requireNumbers <- requires aws_cognito_password_protection_settings "REQUIRES_NUMBERS" ;;
    requireSpecialCharacters <-
      requires aws_cognito_password_protection_settings "REQUIRES_SYMBOLS" ;;
    Return (VObj (literal [ ("minLength", minLength);
                            ("requireLowercase", VBool requireLowercase);
                            ("requireUppercase", VBool requireUppercase);
                            ("requireNumbers", VBool requireNumbers);
                            ("requireSpecialCharacters", VBool requireSpecialCharacters) ]))
  else Return VUndef.

Definition userAttributes (config : obj) : completion obj :=
  let aws_cognito_verification_mechanisms := get config "aws_cognito_verification_mechanisms" in
  let aws_cognito_signup_attributes := get config "aws_cognito_signup_attributes" in
  mechanisms <- iterate (coalesce aws_cognito_verification_mechanisms (VArr [])) ;;
  attributes <- iterate (coalesce aws_cognito_signup_attributes (VArr [])) ;;
  let mergedUserAttributes := dedup (mechanisms ++ attributes) in
  foldM (fun attributes key =>
           lowered <- call_toLowerCase key ;;
           Return (set (spread [] (VObj attributes)) lowered
                     (VObj (literal [ ("required", VBool true) ]))))
        mergedUserAttributes [].

(** [{ username, email, phone }] *)
Definition loginWith (loginWithEmailEnabled loginWithPhoneEnabled : bool) : obj :=
  literal [ ("username", VBool (negb (loginWithEmailEnabled || loginWithPhoneEnabled)));
            ("email", VBool loginWithEmailEnabled);
            ("phone", VBool loginWithPhoneEnabled) ].

Definition authSection (config amplifyConfig : obj) : completion obj :=
  let aws_cognito_identity_pool_id := get config "aws_cognito_identity_pool_id" in
  let aws_cognito_sign_up_verification_method :=
    get config "aws_cognito_sign_up_verification_method" in
  let aws_cognito_username_attributes := get config "aws_cognito_username_attributes" in
  let aws_mandatory_sign_in := get config "aws_mandatory_sign_in" in
  let aws_user_pools_id := get config "aws_user_pools_id" in
  let aws_user_pools_web_client_id := get config "aws_user_pools_web_client_id" in
  mfa <- mfaConfig config ;;
  passwordFormat <- passwordFormatConfig config ;;
  attributes <- userAttributes config ;;
  loginWithEmailEnabled <- opt_includes aws_cognito_username_attributes "EMAIL" ;;
  loginWithPhoneEnabled <- opt_includes aws_cognito_username_attributes "PHONE_NUMBER" ;;
  if truthy aws_cognito_identity_pool_id || truthy aws_user_pools_id then
    Return (set amplifyConfig "Auth"
      (VObj (literal [ ("Cognito",
         VObj (literal [ ("identityPoolId", aws_cognito_identity_pool_id);
                         ("allowGuestAccess", VBool (negb (is_str "enable" aws_mandatory_sign_in)));
                         ("signUpVerificationMethod", aws_cognito_sign_up_verification_method);
                         ("userAttributes", VObj attributes);
                         ("userPoolClientId", aws_user_pools_web_client_id);
                         ("userPoolId", aws_user_pools_id);
                         ("mfa", mfa);
                         ("passwordFormat", passwordFormat);
                         ("loginWith",
                          VObj (loginWith loginWithEmailEnabled loginWithPhoneEnabled)) ])) ])))
  else Return amplifyConfig.

(** [oauth ? Object.keys(oauth).length > 0 : false] *)
Definition hasOAuthConfig (oauth : value) : bool :=
  if truthy oauth then (0 <? List.length (Object_keys oauth))%nat else false.

(** [providers ? providers.length > 0 : false] *)
Definition hasSocialProviderConfig (aws_cognito_social_providers : value) : completion bool :=
  if truthy aws_cognito_social_providers then
    len <- getProp aws_cognito_social_providers "length" ;;
    gt_zero len
  else Return false.

Definition oauthSection (config amplifyConfig : obj) : completion obj :=
  let aws_cognito_social_providers := get config "aws_cognito_social_providers" in
  let oauth := get config "oauth" in
  hasSocial <- hasSocialProviderConfig aws_cognito_social_providers ;;
  let Auth := get amplifyConfig "Auth" in
  if truthy Auth && hasOAuthConfig oauth then
    Cognito <- getProp Auth "Cognito" ;;
    current <- getProp Cognito "loginWith" ;;
    extracted <- getOAuthConfig oauth ;;
    social <-
      (if hasSocial then
         providers <- parseSocialProviders aws_cognito_social_providers ;;
         Return (VObj (literal [ ("providers", providers) ]))
       else Return (VBool false)) ;;
    Cognito <- setProp Cognito "loginWith"
                 (VObj (set (spread [] current) "oauth"
                          (VObj (spread (spread [] (VObj extracted)) social)))) ;;
    Auth <- setProp Auth "Cognito" Cognito ;;
    Return (set amplifyConfig "Auth" Auth)
  else Return amplifyConfig.

Definition storageSection (config amplifyConfig : obj) : obj :=
  let aws_user_files_s3_bucket := get config "aws_user_files_s3_bucket" in
  let aws_user_files_s3_bucket_region := get config "aws_user_files_s3_bucket_region" in
  let aws_user_files_s3_dangerously_connect_to_http_endpoint_for_testing :=
    get config "aws_user_files_s3_dangerously_connect_to_http_endpoint_for_testing" in
  if truthy aws_user_files_s3_bucket then
    set amplifyConfig "Storage"
      (VObj (literal [ ("S3",
         VObj (literal [ ("bucket", aws_user_files_s3_bucket);
                         ("region", aws_user_files_s3_bucket_region);
                         ("dangerouslyConnectToHttpEndpointForTesting",
                          aws_user_files_s3_dangerously_connect_to_http_endpoint_for_testing)
                       ])) ]))
  else amplifyConfig.

Definition geoSection (config amplifyConfig : obj) : completion obj :=
  let geo := get config "geo" in
  if truthy geo then
    amazon_location_service <- getProp geo "amazon_location_service" ;;
    maps <- getProp amazon_location_service "maps" ;;
    geofenceCollections <- getProp amazon_location_service "geofenceCollections" ;;
    search_indices <- getProp amazon_location_service "search_indices" ;;
    region <- getProp amazon_location_service "region" ;;
    Return (set amplifyConfig "Geo"
      (VObj (literal [ ("LocationService",
         VObj (literal [ ("maps", maps);
                         ("geofenceCollections", geofenceCollections);
                         ("searchIndices", search_indices);
                         ("region", region) ])) ])))
  else Return amplifyConfig.

(** The reducer of the REST section. *)
Definition restReducer (acc : obj) (api : value) : completion obj :=
  name <- getProp api "name" ;;
  endpoint <- getProp api "endpoint" ;;
  region <- getProp api "region" ;;
  service <- getProp api "service" ;;
  key <- toString name ;;
  let entry := literal [ ("endpoint", endpoint) ] in
  let entry := spread entry (if truthy service then VObj (literal [ ("service", service) ])
                             else VUndef) in
  let entry := spread entry (if truthy region then VObj (literal [ ("region", region) ])
                             else VUndef) in
  Return (set (spread [] (VObj acc)) key (VObj entry)).

Definition restSection (config amplifyConfig : obj) : completion obj :=
  let aws_cloud_logic_custom := get config "aws_cloud_logic_custom" in
  if truthy aws_cloud_logic_custom then
    REST <- call_reduce aws_cloud_logic_custom restReducer [] ;;
    Return (set amplifyConfig "API"
              (VObj (set (spread [] (get amplifyConfig "API")) "REST" (VObj REST))))
  else Return amplifyConfig.

Definition predictionsSection (config amplifyConfig : obj) : completion obj :=
  let predictions := get config "predictions" in
  if truthy predictions then
    let defaults :=
      coalesce (optProp (optProp (optProp predictions "convert") "speechGenerator") "defaults")
               (VObj []) in
    voiceId <- getProp defaults "VoiceId" ;;
    if truthy voiceId then
      convert <- getProp predictions "convert" ;;
      speechGenerator <- getProp convert "speechGenerator" ;;
      Return (set amplifyConfig "Predictions"
        (VObj (set (spread [] predictions) "convert"
           (VObj (set (spread [] convert) "speechGenerator"
              (VObj (set (spread [] speechGenerator) "defaults"
                 (VObj (literal [ ("voiceId", voiceId) ])))))))))
    else Return (set amplifyConfig "Predictions" predictions)
  else Return amplifyConfig.

Definition invalidParameter : exn :=
  AmplifyError "InvalidParameterException" "Invalid config parameter."
    "Ensure passing the config object imported from  `amplifyconfiguration.json`.".

(** The sections, in source order, from the empty [amplifyConfig]. *)
Definition sections (config : obj) : M obj :=
  let amplifyConfig : obj := [] in
  let amplifyConfig := analyticsSection config amplifyConfig in
  amplifyConfig <~ lift (notificationsSection config amplifyConfig) ;;
  amplifyConfig <~ lift (interactionsSection config amplifyConfig) ;;
  amplifyConfig <~ apiSection config amplifyConfig ;;
  amplifyConfig <~ lift (authSection config amplifyConfig) ;;
  amplifyConfig <~ lift (oauthSection config amplifyConfig) ;;
  let amplifyConfig := storageSection config amplifyConfig in
  amplifyConfig <~ lift (geoSection config amplifyConfig) ;;
  amplifyConfig <~ lift (restSection config amplifyConfig) ;;
  lift (predictionsSection config amplifyConfig).

(** [parseAWSExports(config)]; an omitted argument is the empty object
    [[]].  The result is [amplifyConfig] next to the debug log. *)
Definition parseAWSExports (config : obj) : M obj :=
  if negb (hasOwnProperty config "aws_project_region") then (Throw invalidParameter, [])
  else sections config.

(** ** Reading a result *)

(** [v?.k1?.k2 ...] *)
Definition dig (v : value) (path : list string) : value :=
  fold_left optProp path v.

(** [v] is an object with own property [k]. *)
Definition has (v : value) (k : string) : bool :=
  match v with
  | VObj o => hasOwnProperty o k
  | _ => false
  end.

(** The output and the log of a run on a sample input. *)
Definition output_of (config : obj) : obj :=
  match fst (parseAWSExports config) with
  | Return out => out
  | _ => []
  end.

Definition log_of (config : obj) : list string := snd (parseAWSExports config).

(** ** Vocabulary of the statements *)

Definition is_array (v : value) : bool :=
  match v with
  | VArr _ => true
  | _ => false
  end.

Definition is_string (v : value) : bool :=
  match v with
  | VStr _ => true
  | _ => false
  end.

(** A string, or absent. *)
Definition string_or_absent (v : value) : bool := nullish v || is_string v.

(** What the specification asks of a redirect field: the legacy string cut
    at its commas, the empty list when the field is absent. *)
Definition split_or_empty (v : value) : value :=
  match v with
  | VStr s => VArr (map VStr (split_comma s))
  | _ => VArr []
  end.

Definition comma_free (s : string) : bool :=
  forallb (fun c => negb (Ascii.eqb c comma)) (list_ascii_of_string s).

(** Title case in the words of the specification: the first character
    upper-cased, all remaining characters lower-cased. *)
Definition title_case (s : string) : string :=
  match s with
  | EmptyString => EmptyString
  | String c r => String (upper_char c) (toLowerCase r)
  end.

Definition fallbackMessage (shown : string) : string :=
  "Invalid authentication type " ++ shown ++ ". Falling back to IAM.".

(** [{ GraphQL: { endpoint, customEndpoint, apiKey, region, defaultAuthMode } }],
    before [modelIntrospection] is attached. *)
Definition graphQLValue (config : obj) (defaultAuthMode : value) : obj :=
  [ ("endpoint", get config "aws_appsync_graphqlEndpoint");
    ("customEndpoint", get config "aws_appsync_customEndpoint");
    ("apiKey", get config "aws_appsync_apiKey");
    ("region", get config "aws_appsync_region");
    ("defaultAuthMode", defaultAuthMode) ].

(** [{ Cognito: { ..., loginWith } }], with the other eight properties of
    [Cognito] as [authSection] writes them. *)
Definition authValue (config : obj) (mfa passwordFormat : value) (attributes : obj)
  (login : value) : value :=
  VObj [ ("Cognito",
     VObj [ ("identityPoolId", get config "aws_cognito_identity_pool_id");
            ("allowGuestAccess",
             VBool (negb (is_str "enable" (get config "aws_mandatory_sign_in"))));
            ("signUpVerificationMethod", get config "aws_cognito_sign_up_verification_method");
            ("userAttributes", VObj attributes);
            ("userPoolClientId", get config "aws_user_pools_web_client_id");
            ("userPoolId", get config "aws_user_pools_id");
            ("mfa", mfa);
            ("passwordFormat", passwordFormat);
            ("loginWith", login) ]) ].

(** The value spread after [getOAuthConfig(oauth)] into the oauth object. *)
Definition socialSpread (aws_cognito_social_providers : value) (hasSocial : bool)
  (social : value) : Prop :=
  if hasSocial then
    exists providers,
      parseSocialProviders aws_cognito_social_providers = Return providers
      /\ social = VObj [ ("providers", providers) ]
  else social = VBool false.

(** Each section is an own key of [out] exactly when its trigger holds in
    [config], and [out] has no other key.  The triggers: a truthy field for
    Analytics, Notifications (either Pinpoint block), API (the GraphQL
    endpoint or the REST list), Auth (either pool id), Storage, Geo and
    Predictions; [Array.isArray] of the bot list for Interactions. *)
Definition follows_triggers (config out : obj) : Prop :=
  hasOwnProperty out "Analytics" = truthy (get config "aws_mobile_analytics_app_id")
  /\ hasOwnProperty out "Notifications" =
       (truthy (dig (VObj config) ["Notifications"; "InAppMessaging"; "AWSPinpoint"])
        || truthy (dig (VObj config) ["Notifications"; "Push"; "AWSPinpoint"]))
  /\ hasOwnProperty out "Interactions" = is_array (get config "aws_bots_config")
  /\ hasOwnProperty out "API" =
       (truthy (get config "aws_appsync_graphqlEndpoint")
        || truthy (get config "aws_cloud_logic_custom"))
  /\ hasOwnProperty out "Auth" =
       (truthy (get config "aws_cognito_identity_pool_id")
        || truthy (get config "aws_user_pools_id"))
  /\ hasOwnProperty out "Storage" = truthy (get config "aws_user_files_s3_bucket")
  /\ hasOwnProperty out "Geo" = truthy (get config "geo")
  /\ hasOwnProperty out "Predictions" = truthy (get config "predictions")
  /\ forall k, hasOwnProperty out k = true ->
       In k ["Analytics"; "Notifications"; "Interactions"; "API"; "Auth"; "Storage"; "Geo";
             "Predictions"].

(** [c] throws nothing but a [TypeError]. *)
Definition only_TypeError {A} (c : completion A) : Prop :=
  match c with
  | Throw e => e = TypeError
  | _ => True
  end.

(** [touches K t ac ac']: from [ac] to [ac'] no key other than [K] changed,
    and [K] is an own key of [ac'] when [t] holds or it already was one. *)
Definition touches (K : string) (t : bool) (ac ac' : obj) : Prop :=
  (forall k, k <> K -> get_own ac' k = get_own ac k) /\
  hasOwnProperty ac' K = t || hasOwnProperty ac K.

(** [run config out log]: the sections, in order, each returning, leave
    [out] and the log [log]. *)
Inductive run (config out : obj) (log : list string) : Prop :=
| Run (ac1 ac2 ac3 ac4 ac5 ac7 ac8 : obj)
    (run_notifications :
       notificationsSection config (analyticsSection config []) = Return ac1)
    (run_interactions : interactionsSection config ac1 = Return ac2)
    (run_api : apiSection config ac2 = (Return ac3, log))
    (run_auth : authSection config ac3 = Return ac4)
    (run_oauth : oauthSection config ac4 = Return ac5)
    (run_geo : geoSection config (storageSection config ac5) = Return ac7)
    (run_rest : restSection config ac7 = Return ac8)
    (run_predictions : predictionsSection config ac8 = Return out).

(** ** The shapes the translation reads its fields with *)

Definition primitive (v : value) : bool :=
  match v with
  | VUndef | VNull | VBool _ | VNum _ | VStr _ => true
  | VArr _ | VObj _ | VBuiltin _ => false
  end.

(** Absent, a string or an array: [v?.includes(...)] can be evaluated. *)
Definition searchable (v : value) : bool := nullish v || is_string v || is_array v.

Definition string_list (v : value) : bool :=
  match v with
  | VArr l => forallb is_string l
  | _ => false
  end.

(** Absent, a string or an array of strings. *)
Definition string_seq (v : value) : bool := nullish v || is_string v || string_list v.

(** An array whose entries are not [null] or [undefined] and have a
    primitive [name]. *)
Definition named_entries (v : value) : bool :=
  match v with
  | VArr l => forallb (fun e => negb (nullish e) && primitive (optProp e "name")) l
  | _ => false
  end.

(** The fields of [config] have the shapes the sections read them with,
    section by section: bot entries; the authentication type; the MFA
    configuration and types; the password policy characters; the two
    user-attribute lists; the username attributes; the social providers;
    the redirect fields of the oauth block; the geo block; the REST
    entries.  A condition on a field binds only when the field triggers
    the code that reads it. *)
Definition well_shaped (config : obj) : bool :=
  let bots := get config "aws_bots_config" in
  let mfa := get config "aws_cognito_mfa_configuration" in
  let password := get config "aws_cognito_password_protection_settings" in
  let social := get config "aws_cognito_social_providers" in
  let oauth := get config "oauth" in
  let geo := get config "geo" in
  let rest := get config "aws_cloud_logic_custom" in
  (negb (is_array bots) || named_entries bots)
  && (negb (truthy (get config "aws_appsync_graphqlEndpoint"))
      || primitive (get config "aws_appsync_authenticationType"))
  && (negb (truthy mfa)
      || (is_string mfa && searchable (get config "aws_cognito_mfa_types")))
  && (negb (truthy password) || searchable (optProp password "passwordPolicyCharacters"))
  && string_seq (get config "aws_cognito_verification_mechanisms")
  && string_seq (get config "aws_cognito_signup_attributes")
  && searchable (get config "aws_cognito_username_attributes")
  && (negb (truthy social) || string_list social)
  && (negb (truthy oauth)
      || (string_or_absent (optProp oauth "redirectSignIn")
          && string_or_absent (optProp oauth "redirectSignOut")))
  && (negb (truthy geo) || negb (nullish (optProp geo "amazon_location_service")))
  && (negb (truthy rest) || named_entries rest).

(** ** Sample inputs *)

Definition region_only (v : value) : obj := [ ("aws_project_region", v) ].

(** No region marker, every other section populated. *)
Definition without_region : obj :=
  [ ("aws_mobile_analytics_app_id", VStr "app");
    ("aws_appsync_graphqlEndpoint", VStr "https://api.example.com/graphql");
    ("aws_appsync_authenticationType", VStr "UNKNOWN");
    ("aws_cognito_identity_pool_id", VStr "pool");
    ("geo", VObj []) ].

(** [without_region], with the region marker and a well-formed geo block. *)
Definition without_region_fixed : obj :=
  [ ("aws_project_region", VStr "us-east-1");
    ("aws_mobile_analytics_app_id", VStr "app");
    ("aws_appsync_graphqlEndpoint", VStr "https://api.example.com/graphql");
    ("aws_appsync_authenticationType", VStr "UNKNOWN");
    ("aws_cognito_identity_pool_id", VStr "pool");
    ("geo", VObj [ ("amazon_location_service", VObj [ ("region", VStr "us-east-1") ]) ]) ].

(** A truthy bot configuration that is not an array. *)
Definition bots_not_array : obj :=
  [ ("aws_project_region", VStr "us-east-1");
    ("aws_bots_config", VStr "bots") ].

(** A truthy geo block without [amazon_location_service]. *)
Definition geo_empty : obj :=
  [ ("aws_project_region", VStr "us-east-1"); ("geo", VObj []) ].

(** A bot list with a [null] entry. *)
Definition bots_null_entry : obj :=
  [ ("aws_project_region", VStr "us-east-1"); ("aws_bots_config", VArr [VNull]) ].

(** Every section triggered, every optional sub-field left out. *)
Definition sparse_config : obj :=
  [ ("aws_project_region", VUndef);
    ("aws_mobile_analytics_app_id", VStr "app");
    ("Notifications", VObj [ ("Push", VObj [ ("AWSPinpoint", VObj []) ]) ]);
    ("aws_bots_config", VArr [ VObj [] ]);
    ("aws_appsync_graphqlEndpoint", VStr "https://api.example.com/graphql");
    ("aws_user_pools_id", VStr "us-east-1_pool");
    ("aws_cognito_mfa_configuration", VStr "OPTIONAL");
    ("aws_cognito_password_protection_settings", VObj []);
    ("oauth", VObj [ ("domain", VStr "auth.example.com") ]);
    ("aws_user_files_s3_bucket", VStr "bucket");
    ("geo", VObj [ ("amazon_location_service", VObj []) ]);
    ("aws_cloud_logic_custom", VArr [ VObj [] ]);
    ("predictions", VObj [ ("convert", VObj []) ]) ].


Definition sample_oauth : value :=
  VObj [ ("domain", VStr "auth.example.com");
         ("scope", VArr [VStr "openid"; VStr "email"]);
         ("redirectSignIn", VStr "a,b,c");
         ("responseType", VStr "code") ].

Definition auth_config : obj :=
  [ ("aws_project_region", VStr "us-east-1");
    ("aws_cognito_identity_pool_id", VStr "us-east-1:pool");
    ("aws_user_pools_id", VStr "us-east-1_pool");
    ("aws_cognito_username_attributes", VArr [VStr "EMAIL"]);
    ("aws_cognito_social_providers", VArr [VStr "GOOGLE"; VStr "FACEBOOK"]);
    ("oauth", sample_oauth) ].

(** As [auth_config], without oauth block and social providers. *)
Definition auth_config_plain : obj :=
  [ ("aws_project_region", VStr "us-east-1");
    ("aws_user_pools_id", VStr "us-east-1_pool");
    ("aws_cognito_username_attributes", VArr [VStr "EMAIL"]) ].

Definition notifications_config : obj :=
  [ ("aws_project_region", VStr "us-east-1");
    ("Notifications",
     VObj [ ("InAppMessaging",
             VObj [ ("AWSPinpoint", VObj [ ("appId", VStr "in-app"); ("region", VStr "us-east-1") ]) ]);
            ("Push",
             VObj [ ("AWSPinpoint", VObj [ ("appId", VStr "push"); ("region", VStr "eu-west-1") ]) ]) ]) ].

(** A GraphQL endpoint whose authentication type names a member of
    [Object.prototype]. *)
Definition constructor_config : obj :=
  [ ("aws_project_region", VStr "us-east-1");
    ("aws_appsync_graphqlEndpoint", VStr "https://api.example.com/graphql");
    ("aws_appsync_authenticationType", VStr "constructor") ].

(** ** Vocabulary of the further properties *)

(** No key occurs twice, as in every JavaScript object. *)
Definition well_formed (o : obj) : Prop := NoDup (map fst o).

(** The fields [parseAWSExports] destructures from [config]. *)
Definition fields : list string :=
  [ "aws_appsync_apiKey"; "aws_appsync_authenticationType"; "aws_appsync_graphqlEndpoint";
    "aws_appsync_customEndpoint"; "aws_appsync_region"; "aws_bots_config";
    "aws_cognito_identity_pool_id"; "aws_cognito_sign_up_verification_method";
    "aws_cognito_mfa_configuration"; "aws_cognito_mfa_types";
    "aws_cognito_password_protection_settings"; "aws_cognito_verification_mechanisms";
    "aws_cognito_signup_attributes"; "aws_cognito_social_providers";
    "aws_cognito_username_attributes"; "aws_mandatory_sign_in";
    "aws_mobile_analytics_app_id"; "aws_mobile_analytics_app_region";
    "aws_user_files_s3_bucket"; "aws_user_files_s3_bucket_region";
    "aws_user_files_s3_dangerously_connect_to_http_endpoint_for_testing";
    "aws_user_pools_id"; "aws_user_pools_web_client_id"; "geo"; "oauth"; "predictions";
    "aws_cloud_logic_custom"; "Notifications"; "modelIntrospection" ].

(** An input with an unknown field, and the same input without it and with
    another region value. *)
Definition with_unknown_field : obj :=
  [ ("aws_project_region", VStr "us-east-1");
    ("aws_some_future_setting", VObj [ ("enabled", VBool true) ]);
    ("aws_user_files_s3_bucket", VStr "bucket");
    ("aws_appsync_graphqlEndpoint", VStr "https://api.example.com/graphql");
    ("aws_appsync_authenticationType", VStr "API_KEY") ].

Definition without_unknown_field : obj :=
  [ ("aws_user_files_s3_bucket", VStr "bucket");
    ("aws_appsync_graphqlEndpoint", VStr "https://api.example.com/graphql");
    ("aws_appsync_authenticationType", VStr "API_KEY");
    ("aws_project_region", VNull) ].

(** A user pool with MFA and a password policy. *)
Definition cognito_config : obj :=
  [ ("aws_project_region", VStr "us-east-1");
    ("aws_cognito_identity_pool_id", VStr "us-east-1:identity");
    ("aws_user_pools_id", VStr "us-east-1_pool");
    ("aws_user_pools_web_client_id", VStr "client");
    ("aws_mandatory_sign_in", VStr "enable");
    ("aws_cognito_sign_up_verification_method", VStr "CODE");
    ("aws_cognito_mfa_configuration", VStr "OPTIONAL");
    ("aws_cognito_mfa_types", VArr [VStr "SMS"]);
    ("aws_cognito_password_protection_settings",
     VObj [ ("passwordPolicyMinLength", VNum 8);
            ("passwordPolicyCharacters",
             VArr [VStr "REQUIRES_LOWERCASE"; VStr "REQUIRES_NUMBERS"]) ]);
    ("aws_cognito_verification_mechanisms", VArr [VStr "EMAIL"]);
    ("aws_cognito_signup_attributes", VArr [VStr "EMAIL"; VStr "PHONE_NUMBER"]) ].

(** Absent, or an array of strings. *)
Definition names_or_absent (v : value) : bool := nullish v || string_list v.

(** The strings of an array of strings; none for an absent list. *)
Definition names_of (v : value) : list string :=
  match v with
  | VArr l => flat_map (fun e => match e with VStr s => [s] | _ => [] end) l
  | _ => []
  end.

(** [{ required: true }] *)
Definition required : value := VObj [ ("required", VBool true) ].

(** The [name] of [entry], as a property key, is [k]. *)
Definition named (k : string) (entry : value) : bool :=
  match toString (optProp entry "name") with
  | Return s => String.eqb s k
  | _ => false
  end.

(** The last entry of [l] named [k]. *)
Definition last_named (k : string) (l : list value) : option value :=
  find (named k) (rev l).


(** The GraphQL object of [apiSection] for the property key [key] of the
    authentication type. *)
Definition graphQLResult (config : obj) (key : string) : obj :=
  let GraphQL := graphQLValue config (coalesce (get authTypeMapping key) (VStr "iam")) in
  if truthy (get config "modelIntrospection")
  then set GraphQL "modelIntrospection" (get config "modelIntrospection")
  else GraphQL.

(** Bots and REST endpoints, with a repeated name in each list, next to a
    GraphQL endpoint with an introspection schema. *)
Definition api_config : obj :=
  [ ("aws_project_region", VStr "us-east-1");
    ("aws_bots_config",
     VArr [ VObj [ ("name", VStr "BookTrip"); ("alias", VStr "$LATEST") ];
            VObj [ ("name", VStr "OrderFlowers") ];
            VObj [ ("name", VStr "BookTrip"); ("alias", VStr "prod") ] ]);
    ("aws_appsync_graphqlEndpoint", VStr "https://api.example.com/graphql");
    ("aws_appsync_authenticationType", VStr "AMAZON_COGNITO_USER_POOLS");
    ("aws_appsync_region", VStr "us-east-1");
    ("modelIntrospection", VObj [ ("version", VNum 1) ]);
    ("aws_cloud_logic_custom",
     VArr [ VObj [ ("name", VStr "orders"); ("endpoint", VStr "https://a.example.com");
                   ("region", VStr "us-east-1") ];
            VObj [ ("name", VStr "orders"); ("endpoint", VStr "https://b.example.com");
                   ("service", VStr "lambda"); ("region", VStr "") ] ]) ].

(** Not an object that holds a function under [name]: calling
    [v.name(...)] is decided by the kind of [v] alone. *)
Definition no_own_method (name : string) (v : value) : bool :=
  match v with
  | VObj o => negb (callable (get o name))
  | _ => true
  end.

(** A predictions block with a default voice among other defaults. *)
Definition predictions_config : obj :=
  [ ("aws_project_region", VStr "us-east-1");
    ("predictions",
     VObj [ ("convert",
             VObj [ ("translateText", VObj [ ("region", VStr "us-east-1") ]);
                    ("speechGenerator",
                     VObj [ ("region", VStr "us-east-1");
                            ("defaults",
                             VObj [ ("VoiceId", VStr "Ivy");
                                    ("LanguageCode", VStr "en-US") ]) ]) ]);
            ("identify", VObj [ ("identifyText", VObj []) ]) ]) ].

(** Only the push channel, next to analytics and storage. *)
Definition push_only_config : obj :=
  [ ("aws_project_region", VStr "us-east-1");
    ("aws_mobile_analytics_app_id", VStr "analytics-app");
    ("aws_user_files_s3_bucket", VStr "bucket");
    ("aws_user_files_s3_bucket_region", VStr "eu-west-1");
    ("Notifications",
     VObj [ ("Push", VObj [ ("AWSPinpoint", VObj [ ("appId", VStr "push") ]) ]) ]) ].

(** ** Own properties under [set] *)

Lemma get_own_set_eq (o : obj) (k : string) (v : value) :
  get_own (set o k v) k = Some v.
Proof.
  induction o as [|[k' v'] o IH]; simpl.
  - now rewrite String.eqb_refl.
  - destruct (String.eqb k' k) eqn:E; simpl; rewrite E; auto.
Qed.

Lemma get_own_set_neq (o : obj) (k k' : string) (v : value) :
  k <> k' -> get_own (set o k v) k' = get_own o k'.
Proof.
  intros N. induction o as [|[k0 v0] o IH]; simpl.
  - destruct (String.eqb k k') eqn:E; auto. apply String.eqb_eq in E. contradiction.
  - destruct (String.eqb k0 k) eqn:E; simpl.
    + apply String.eqb_eq in E. subst k0.
      destruct (String.eqb k k') eqn:E'; auto. apply String.eqb_eq in E'. contradiction.
    + now rewrite IH.
Qed.

Lemma get_own_set (o : obj) (k k' : string) (v : value) :
  get_own (set o k v) k' = if String.eqb k k' then Some v else get_own o k'.
Proof.
  destruct (String.eqb k k') eqn:E.
  - apply String.eqb_eq in E. subst. apply get_own_set_eq.
  - apply String.eqb_neq in E. now apply get_own_set_neq.
Qed.

Lemma get_set_eq (o : obj) (k : string) (v : value) : get (set o k v) k = v.
Proof. unfold get. now rewrite get_own_set_eq. Qed.

Lemma get_set_neq (o : obj) (k k' : string) (v : value) :
  k <> k' -> get (set o k v) k' = get o k'.
Proof. intros N. unfold get. now rewrite get_own_set_neq. Qed.

Lemma hasOwnProperty_set (o : obj) (k k' : string) (v : value) :
  hasOwnProperty (set o k v) k' = String.eqb k k' || hasOwnProperty o k'.
Proof.
  unfold hasOwnProperty. rewrite get_own_set. now destruct (String.eqb k k').
Qed.

Lemma get_absent (o : obj) (k : string) :
  hasOwnProperty o k = false -> objectPrototype k = None -> get o k = VUndef.
Proof.
  unfold hasOwnProperty, get. intros H P. rewrite P.
  destruct (get_own o k); [discriminate | reflexivity].
Qed.

(** ** Inversion of the two binds *)

Lemma cbind_Return {A B} (c : completion A) (f : A -> completion B) (b : B) :
  cbind c f = Return b -> exists a, c = Return a /\ f a = Return b.
Proof. destruct c; simpl; intros H; try discriminate. eauto. Qed.

Lemma mbind_Return {A B} (m : M A) (f : A -> M B) (b : B) (l : list string) :
  mbind m f = (Return b, l) ->
  exists a l1 l2, m = (Return a, l1) /\ f a = (Return b, l2) /\ l = l1 ++ l2.
Proof.
  destruct m as [c l1]. unfold mbind. simpl.
  destruct c; intros H; try discriminate.
  exists a, l1, (snd (f a)). inversion H. subst.
  repeat split. now destruct (f a).
Qed.

Lemma lift_Return {A} (c : completion A) (a : A) (l : list string) :
  lift c = (Return a, l) -> c = Return a /\ l = [].
Proof. unfold lift. intros H. now inversion H. Qed.

Lemma getProp_Return (v : value) (k : string) (x : value) :
  getProp v k = Return x -> nullish v = false /\ x = optProp v k.
Proof.
  unfold getProp. destruct (nullish v); intros H; [discriminate|]. now inversion H.
Qed.

Lemma getProp_defined (v : value) (k : string) :
  nullish v = false -> getProp v k = Return (optProp v k).
Proof. unfold getProp. now intros ->. Qed.

Lemma truthy_not_nullish (v : value) : truthy v = true -> nullish v = false.
Proof. now destruct v. Qed.

Lemma optProp_nullish (v : value) (k : string) : nullish v = true -> optProp v k = VUndef.
Proof. now destruct v. Qed.

(** Inverts every bind of a hypothesis [... = Return _]. *)
Ltac invert_binds :=
  repeat match goal with
    | H : cbind _ _ = Return _ |- _ =>
        let a := fresh "x" in let E := fresh "E" in
        apply cbind_Return in H; destruct H as (a & E & H)
    | H : getProp _ _ = Return _ |- _ =>
        let N := fresh "N" in
        apply getProp_Return in H; destruct H as [N H]; try subst
    | H : Return _ = Return _ |- _ => inversion H; clear H; try subst
    end.

(** ** What a section does to the top-level keys *)

Lemma touches_refl (K : string) (ac : obj) : touches K false ac ac.
Proof. split; auto. Qed.

Lemma touches_set (K : string) (ac : obj) (v : value) : touches K true ac (set ac K v).
Proof.
  split.
  - intros k N. apply get_own_set_neq. congruence.
  - rewrite hasOwnProperty_set, String.eqb_refl. reflexivity.
Qed.

Lemma touches_trans (K : string) (t1 t2 : bool) (a b c : obj) :
  touches K t1 a b -> touches K t2 b c -> touches K (t1 || t2) a c.
Proof.
  intros [F1 O1] [F2 O2]. split.
  - intros k N. rewrite F2, F1; auto.
  - rewrite O2, O1. now destruct t1, t2.
Qed.

Lemma touches_if (K : string) (t : bool) (ac : obj) (v : value) :
  touches K t ac (if t then set ac K v else ac).
Proof. destruct t; [apply touches_set | apply touches_refl]. Qed.

Lemma touches_other (K k : string) (t : bool) (ac ac' : obj) :
  touches K t ac ac' -> k <> K -> hasOwnProperty ac' k = hasOwnProperty ac k.
Proof. intros [F _] N. unfold hasOwnProperty. now rewrite F. Qed.

Lemma analytics_touches (config ac : obj) :
  touches "Analytics" (truthy (get config "aws_mobile_analytics_app_id"))
    ac (analyticsSection config ac).
Proof. unfold analyticsSection. apply touches_if. Qed.

Lemma storage_touches (config ac : obj) :
  touches "Storage" (truthy (get config "aws_user_files_s3_bucket"))
    ac (storageSection config ac).
Proof. unfold storageSection. apply touches_if. Qed.

Lemma inAppMessagingStep_touches (InAppMessaging : value) (ac ac' : obj) :
  inAppMessagingStep InAppMessaging ac = Return ac' ->
  touches "Notifications" (truthy (optProp InAppMessaging "AWSPinpoint")) ac ac'.
Proof.
  unfold inAppMessagingStep.
  destruct (truthy (optProp InAppMessaging "AWSPinpoint")); intros H; invert_binds.
  - apply touches_set.
  - apply touches_refl.
Qed.

Lemma pushStep_touches (Push : value) (ac ac' : obj) :
  pushStep Push ac = Return ac' ->
  touches "Notifications" (truthy (optProp Push "AWSPinpoint")) ac ac'.
Proof.
  unfold pushStep.
  destruct (truthy (optProp Push "AWSPinpoint")); intros H; invert_binds.
  - apply touches_set.
  - apply touches_refl.
Qed.

Lemma optProp_coalesce_empty (v : value) (k : string) :
  objectPrototype k = None -> optProp (coalesce v (VObj [])) k = optProp v k.
Proof.
  intros P. destruct v; try reflexivity; simpl; unfold get; simpl; now rewrite P.
Qed.

Lemma notifications_touches (config ac ac' : obj) :
  notificationsSection config ac = Return ac' ->
  touches "Notifications"
    (truthy (dig (VObj config) ["Notifications"; "InAppMessaging"; "AWSPinpoint"])
     || truthy (dig (VObj config) ["Notifications"; "Push"; "AWSPinpoint"]))
    ac ac'.
Proof.
  unfold notificationsSection, dig. simpl fold_left. intros H. invert_binds.
  rewrite !optProp_coalesce_empty in H by reflexivity.
  set (a := truthy (optProp (optProp (get config "Notifications") "InAppMessaging") "AWSPinpoint")) in *.
  set (b := truthy (optProp (optProp (get config "Notifications") "Push") "AWSPinpoint")) in *.
  remember (a || b) as t eqn:T in H. destruct t.
  - invert_binds.
    eapply touches_trans.
    + eapply inAppMessagingStep_touches; eauto.
    + eapply pushStep_touches; eauto.
  - invert_binds. rewrite <- T. apply touches_refl.
Qed.

Lemma interactions_touches (config ac ac' : obj) :
  interactionsSection config ac = Return ac' ->
  touches "Interactions" (is_array (get config "aws_bots_config")) ac ac'.
Proof.
  unfold interactionsSection.
  destruct (get config "aws_bots_config"); simpl; intros H; invert_binds;
    try apply touches_refl.
  apply touches_set.
Qed.

Ltac invert_mbinds :=
  repeat match goal with
    | H : mbind _ _ = (Return _, _) |- _ =>
        let a := fresh "x" in let l1 := fresh "l" in let l2 := fresh "l" in
        let E := fresh "E" in let L := fresh "L" in
        apply mbind_Return in H; destruct H as (a & l1 & l2 & E & H & L)
    | H : lift _ = (Return _, _) |- _ =>
        let L := fresh "L" in apply lift_Return in H; destruct H as [H L]
    | H : mret _ = (Return _, _) |- _ => unfold mret in H; inversion H; clear H; try subst
    end.

Lemma api_touches (config ac ac' : obj) (l : list string) :
  apiSection config ac = (Return ac', l) ->
  touches "API" (truthy (get config "aws_appsync_graphqlEndpoint")) ac ac'.
Proof.
  unfold apiSection.
  destruct (truthy (get config "aws_appsync_graphqlEndpoint")); intros H; invert_mbinds.
  - apply touches_set.
  - apply touches_refl.
Qed.

Lemma auth_touches (config ac ac' : obj) :
  authSection config ac = Return ac' ->
  touches "Auth"
    (truthy (get config "aws_cognito_identity_pool_id") || truthy (get config "aws_user_pools_id"))
    ac ac'.
Proof.
  unfold authSection. intros H. invert_binds.
  destruct (truthy (get config "aws_cognito_identity_pool_id")
            || truthy (get config "aws_user_pools_id")); invert_binds.
  - apply touches_set.
  - apply touches_refl.
Qed.

Lemma truthy_get_own (o : obj) (k : string) :
  objectPrototype k = None -> truthy (get o k) = true -> hasOwnProperty o k = true.
Proof.
  unfold get, hasOwnProperty. intros ->. now destruct (get_own o k).
Qed.

Lemma oauth_touches (config ac ac' : obj) :
  oauthSection config ac = Return ac' -> touches "Auth" false ac ac'.
Proof.
  unfold oauthSection. intros H. invert_binds.
  destruct (truthy (get ac "Auth")) eqn:T; simpl in H.
  - destruct (hasOAuthConfig (get config "oauth")); invert_binds.
    + match goal with |- touches _ _ _ (set _ _ ?v) =>
        destruct (touches_set "Auth" ac v) as [F O] end.
      split; auto.
      rewrite O. simpl. symmetry. now apply truthy_get_own.
    + apply touches_refl.
  - invert_binds. apply touches_refl.
Qed.

Lemma geo_touches (config ac ac' : obj) :
  geoSection config ac = Return ac' -> touches "Geo" (truthy (get config "geo")) ac ac'.
Proof.
  unfold geoSection. destruct (truthy (get config "geo")); intros H; invert_binds.
  - apply touches_set.
  - apply touches_refl.
Qed.

Lemma rest_touches (config ac ac' : obj) :
  restSection config ac = Return ac' ->
  touches "API" (truthy (get config "aws_cloud_logic_custom")) ac ac'.
Proof.
  unfold restSection. destruct (truthy (get config "aws_cloud_logic_custom"));
    intros H; invert_binds.
  - apply touches_set.
  - apply touches_refl.
Qed.

Lemma predictions_touches (config ac ac' : obj) :
  predictionsSection config ac = Return ac' ->
  touches "Predictions" (truthy (get config "predictions")) ac ac'.
Proof.
  unfold predictionsSection. destruct (truthy (get config "predictions"));
    intros H; invert_binds.
  - destruct (truthy _) in H; invert_binds; apply touches_set.
  - apply touches_refl.
Qed.

(** ** A returning run, section by section *)

Lemma sections_run (config out : obj) (log : list string) :
  sections config = (Return out, log) <-> run config out log.
Proof.
  unfold sections. split.
  - intros H. invert_mbinds. subst. simpl.
    rewrite !app_nil_r. econstructor; eauto.
  - intros [ac1 ac2 ac3 ac4 ac5 ac7 ac8 H1 H2 H3 H4 H5 H7 H8 H9].
    unfold mbind, lift. simpl.
    rewrite H1. simpl. rewrite H2. simpl. rewrite H3. simpl.
    rewrite H4. simpl. rewrite H5. simpl. rewrite H7. simpl. rewrite H8. simpl.
    rewrite H9. now rewrite !app_nil_r.
Qed.

Lemma parse_run (config out : obj) (log : list string) :
  parseAWSExports config = (Return out, log) <->
  hasOwnProperty config "aws_project_region" = true /\ run config out log.
Proof.
  unfold parseAWSExports. rewrite <- sections_run.
  destruct (hasOwnProperty config "aws_project_region"); simpl; split.
  - now intros H.
  - now intros [_ H].
  - discriminate.
  - now intros [H _].
Qed.

(** ** Which sections a returning run leaves *)

Ltac skip_step T := rewrite (touches_other _ _ _ _ _ T) by discriminate.
Ltac this_step T := rewrite (proj2 T).

Lemma run_sections (config out : obj) (log : list string) :
  run config out log -> follows_triggers config out.
Proof.
  intros [ac1 ac2 ac3 ac4 ac5 ac7 ac8 H1 H2 H3 H4 H5 H7 H8 H9].
  pose proof (analytics_touches config []) as T0.
  apply notifications_touches in H1. apply interactions_touches in H2.
  apply api_touches in H3. apply auth_touches in H4. apply oauth_touches in H5.
  pose proof (storage_touches config ac5) as T6.
  apply geo_touches in H7. apply rest_touches in H8. apply predictions_touches in H9.
  unfold follows_triggers. repeat split.
  - skip_step H9. skip_step H8. skip_step H7. skip_step T6. skip_step H5. skip_step H4.
    skip_step H3. skip_step H2. skip_step H1. this_step T0. simpl. apply orb_false_r.
  - skip_step H9. skip_step H8. skip_step H7. skip_step T6. skip_step H5. skip_step H4.
    skip_step H3. skip_step H2. this_step H1. skip_step T0. simpl. apply orb_false_r.
  - skip_step H9. skip_step H8. skip_step H7. skip_step T6. skip_step H5. skip_step H4.
    skip_step H3. this_step H2. skip_step H1. skip_step T0. simpl. apply orb_false_r.
  - skip_step H9. this_step H8. skip_step H7. skip_step T6. skip_step H5. skip_step H4.
    this_step H3. skip_step H2. skip_step H1. skip_step T0. simpl.
    rewrite orb_false_r. apply orb_comm.
  - skip_step H9. skip_step H8. skip_step H7. skip_step T6. this_step H5. this_step H4.
    skip_step H3. skip_step H2. skip_step H1. skip_step T0. simpl. apply orb_false_r.
  - skip_step H9. skip_step H8. skip_step H7. this_step T6. skip_step H5. skip_step H4.
    skip_step H3. skip_step H2. skip_step H1. skip_step T0. simpl. apply orb_false_r.
  - skip_step H9. skip_step H8. this_step H7. skip_step T6. skip_step H5. skip_step H4.
    skip_step H3. skip_step H2. skip_step H1. skip_step T0. simpl. apply orb_false_r.
  - this_step H9. skip_step H8. skip_step H7. skip_step T6. skip_step H5. skip_step H4.
    skip_step H3. skip_step H2. skip_step H1. skip_step T0. simpl. apply orb_false_r.
  - intros k Hk. simpl.
    destruct (string_dec "Analytics" k); [tauto|].
    destruct (string_dec "Notifications" k); [tauto|].
    destruct (string_dec "Interactions" k); [tauto|].
    destruct (string_dec "API" k); [tauto|].
    destruct (string_dec "Auth" k); [tauto|].
    destruct (string_dec "Storage" k); [tauto|].
    destruct (string_dec "Geo" k); [tauto|].
    destruct (string_dec "Predictions" k); [tauto|].
    exfalso. revert Hk.
    rewrite (touches_other _ k _ _ _ H9) by congruence.
    rewrite (touches_other _ k _ _ _ H8) by congruence.
    rewrite (touches_other _ k _ _ _ H7) by congruence.
    rewrite (touches_other _ k _ _ _ T6) by congruence.
    rewrite (touches_other _ k _ _ _ H5) by congruence.
    rewrite (touches_other _ k _ _ _ H4) by congruence.
    rewrite (touches_other _ k _ _ _ H3) by congruence.
    rewrite (touches_other _ k _ _ _ H2) by congruence.
    rewrite (touches_other _ k _ _ _ H1) by congruence.
    rewrite (touches_other _ k _ _ _ T0) by congruence.
    discriminate.
Qed.

(** ** The sections throw nothing but [TypeError] *)

Create HintDb js.

Lemma value_nested_ind (P : value -> Prop) :
  P VUndef -> P VNull -> (forall b, P (VBool b)) -> (forall z, P (VNum z)) ->
  (forall s, P (VStr s)) ->
  (forall l, Forall P l -> P (VArr l)) ->
  (forall o, Forall (fun kv => P (snd kv)) o -> P (VObj o)) ->
  (forall b, P (VBuiltin b)) ->
  forall v, P v.
Proof.
  intros HU HN HB HZ HS HA HO HF.
  fix IH 1.
  intros [| |b|z|s|l|o|b];
    [exact HU | exact HN | apply HB | apply HZ | apply HS | | | apply HF].
  - apply HA. induction l as [|e l IHl]; constructor; [apply IH | exact IHl].
  - apply HO. induction o as [|[k e] o IHo]; constructor; [apply IH | exact IHo].
Qed.

Lemma only_cbind {A B} (c : completion A) (f : A -> completion B) :
  only_TypeError c -> (forall a, only_TypeError (f a)) -> only_TypeError (cbind c f).
Proof. destruct c; simpl; auto. Qed.

Lemma only_Return {A} (a : A) : only_TypeError (Return a).
Proof. exact I. Qed.

Lemma only_Throw {A} : only_TypeError (@Throw A TypeError).
Proof. reflexivity. Qed.

Lemma only_Unmodelled {A} : only_TypeError (@Unmodelled A).
Proof. exact I. Qed.

#[local] Hint Resolve only_Return only_Throw only_Unmodelled : js.

(** Splits a goal [only_TypeError c] along the binds, conditionals and
    matches of [c]. *)
Ltac only_step :=
  match goal with
  | |- only_TypeError (cbind _ _) => apply only_cbind; [|intros]
  | |- only_TypeError (if ?b then _ else _) => destruct b
  | |- only_TypeError (match ?v with _ => _ end) => destruct v
  | |- only_TypeError _ => solve [auto with js]
  end.
Ltac only_tac := repeat only_step.

Lemma only_getProp (v : value) (k : string) : only_TypeError (getProp v k).
Proof. unfold getProp. only_tac. Qed.

Lemma only_setProp (v : value) (k : string) (x : value) : only_TypeError (setProp v k x).
Proof. unfold setProp. only_tac. Qed.

Lemma only_no_method {A} (v : value) (k : string) : only_TypeError (@no_method A v k).
Proof. unfold no_method. only_tac. Qed.

#[local] Hint Resolve only_getProp only_setProp only_no_method : js.

Lemma only_toString (v : value) : only_TypeError (toString v).
Proof.
  induction v as [| |b|z|s|l IH|o _|b] using value_nested_ind;
    cbn [toString]; try solve [only_tac].
  apply only_cbind; [|intros; exact I].
  induction IH as [|e l He _ IHl]; [exact I|].
  apply only_cbind; [destruct (nullish e); [exact I | exact He]|].
  intros s. apply only_cbind; [exact IHl | intros; exact I].
Qed.

Lemma only_mapM {A B} (f : A -> completion B) (l : list A) :
  (forall a, only_TypeError (f a)) -> only_TypeError (mapM f l).
Proof. intros F. induction l; simpl; only_tac; auto. Qed.

Lemma only_foldM {A B} (f : B -> A -> completion B) (l : list A) (acc : B) :
  (forall b a, only_TypeError (f b a)) -> only_TypeError (foldM f l acc).
Proof. intros F. revert acc. induction l; intros acc; simpl; only_tac; auto. Qed.

#[local] Hint Resolve only_toString : js.

Lemma only_call_toLowerCase (v : value) : only_TypeError (call_toLowerCase v).
Proof. unfold call_toLowerCase. only_tac. Qed.

Lemma only_opt_includes (v : value) (needle : string) :
  only_TypeError (opt_includes v needle).
Proof. unfold opt_includes, call_includes. only_tac. Qed.

Lemma only_iterate (v : value) : only_TypeError (iterate v).
Proof. unfold iterate. only_tac. Qed.

Lemma only_gt_zero (v : value) : only_TypeError (gt_zero v).
Proof. unfold gt_zero. only_tac. Qed.

#[local] Hint Resolve only_call_toLowerCase only_opt_includes only_iterate only_gt_zero : js.

Lemma only_getRedirectUrl (v : value) : only_TypeError (getRedirectUrl v).
Proof. unfold getRedirectUrl, call_split_comma. only_tac. Qed.

#[local] Hint Resolve only_getRedirectUrl : js.

Lemma only_getOAuthConfig (v : value) : only_TypeError (getOAuthConfig v).
Proof. unfold getOAuthConfig. only_tac. Qed.

Lemma only_parseSocialProviders (v : value) : only_TypeError (parseSocialProviders v).
Proof.
  unfold parseSocialProviders, call_map. only_tac.
  apply only_mapM. intros a. unfold titleCase. only_tac.
Qed.

#[local] Hint Resolve only_getOAuthConfig only_parseSocialProviders : js.

Lemma only_notifications (config ac : obj) :
  only_TypeError (notificationsSection config ac).
Proof. unfold notificationsSection, inAppMessagingStep, pushStep. only_tac. Qed.

Lemma only_interactions (config ac : obj) :
  only_TypeError (interactionsSection config ac).
Proof.
  unfold interactionsSection, fromEntries.
  destruct (get config "aws_bots_config"); auto with js.
  apply only_cbind; [apply only_mapM; intros; only_tac|].
  intros entries. apply only_cbind; [apply only_foldM; intros; only_tac | intros; exact I].
Qed.

Lemma only_api (config ac : obj) : only_TypeError (fst (apiSection config ac)).
Proof.
  unfold apiSection. destruct (truthy (get config "aws_appsync_graphqlEndpoint")); [|exact I].
  unfold mbind, lift. simpl.
  pose proof (only_toString (get config "aws_appsync_authenticationType")) as T.
  destruct (toString (get config "aws_appsync_authenticationType")); simpl; auto.
  destruct (negb (truthy (get authTypeMapping a))); simpl; exact I.
Qed.

Lemma only_auth (config ac : obj) : only_TypeError (authSection config ac).
Proof.
  unfold authSection, mfaConfig, passwordFormatConfig, requires, userAttributes.
  only_tac; try (apply only_foldM; intros; only_tac).
Qed.

Lemma only_oauth (config ac : obj) : only_TypeError (oauthSection config ac).
Proof. unfold oauthSection, hasSocialProviderConfig. only_tac. Qed.

Lemma only_geo (config ac : obj) : only_TypeError (geoSection config ac).
Proof. unfold geoSection. only_tac. Qed.

Lemma only_rest (config ac : obj) : only_TypeError (restSection config ac).
Proof.
  unfold restSection, call_reduce. only_tac.
  apply only_foldM. intros. unfold restReducer. only_tac.
Qed.

Lemma only_predictions (config ac : obj) : only_TypeError (predictionsSection config ac).
Proof. unfold predictionsSection. only_tac. Qed.

Lemma only_mbind {A B} (m : M A) (f : A -> M B) :
  only_TypeError (fst m) -> (forall a, only_TypeError (fst (f a))) ->
  only_TypeError (fst (mbind m f)).
Proof. destruct m as [c l]. unfold mbind. simpl. destruct c; simpl; auto. Qed.

Lemma only_sections (config : obj) : only_TypeError (fst (sections config)).
Proof.
  unfold sections.
  apply only_mbind; [apply only_notifications|]. intros ?.
  apply only_mbind; [apply only_interactions|]. intros ?.
  apply only_mbind; [apply only_api|]. intros ?.
  apply only_mbind; [apply only_auth|]. intros ?.
  apply only_mbind; [apply only_oauth|]. intros ?.
  apply only_mbind; [apply only_geo|]. intros ?.
  apply only_mbind; [apply only_rest|]. intros ?.
  apply only_predictions.
Qed.

Lemma getOAuthConfig_result (oauth : value) :
  nullish oauth = false ->
  string_or_absent (optProp oauth "redirectSignIn") = true ->
  string_or_absent (optProp oauth "redirectSignOut") = true ->
  getOAuthConfig oauth =
    Return [ ("domain", optProp oauth "domain");
             ("scopes", optProp oauth "scope");
             ("redirectSignIn", split_or_empty (optProp oauth "redirectSignIn"));
             ("redirectSignOut", split_or_empty (optProp oauth "redirectSignOut"));
             ("responseType", optProp oauth "responseType") ].
Proof.
  intros N I O.
  unfold getOAuthConfig. rewrite !getProp_defined by assumption. simpl.
  unfold string_or_absent in *.
  destruct (optProp oauth "redirectSignIn"); try discriminate;
    destruct (optProp oauth "redirectSignOut"); try discriminate; reflexivity.
Qed.

(** ** The helpers *)

Lemma split_comma_nonempty (s : string) : split_comma s <> [].
Proof.
  destruct s as [|c r]; simpl; [discriminate|].
  destruct (Ascii.eqb c comma); [discriminate|].
  destruct (split_comma r); discriminate.
Qed.

Lemma join_split_comma (s : string) : join "," (split_comma s) = s.
Proof.
  induction s as [|c r IH]; [reflexivity|].
  simpl split_comma. destruct (Ascii.eqb c comma) eqn:E.
  - apply Ascii.eqb_eq in E. subst c.
    pose proof (split_comma_nonempty r) as N.
    destruct (split_comma r) as [|h t]; [contradiction|].
    change (join "," (EmptyString :: h :: t)) with (String comma (join "," (h :: t))).
    now rewrite IH.
  - pose proof (split_comma_nonempty r) as N.
    destruct (split_comma r) as [|h t]; [contradiction|].
    destruct t as [|h' t]; simpl in *; now rewrite <- IH.
Qed.

Lemma split_comma_comma_free (s : string) :
  forallb comma_free (split_comma s) = true.
Proof.
  induction s as [|c r IH]; [reflexivity|].
  simpl split_comma. destruct (Ascii.eqb c comma) eqn:E.
  - simpl. exact IH.
  - pose proof (split_comma_nonempty r) as N.
    destruct (split_comma r) as [|h t]; [contradiction|].
    simpl in *. unfold comma_free in *. simpl. now rewrite E.
Qed.

Lemma upper_lower_char (c : ascii) : upper_char (lower_char c) = upper_char c.
Proof. destruct c as [[] [] [] [] [] [] [] []]; reflexivity. Qed.

Lemma titleCase_string (s : string) : titleCase (VStr s) = Return (VStr (title_case s)).
Proof.
  unfold titleCase. simpl. destruct s as [|c r]; [reflexivity|].
  simpl. now rewrite upper_lower_char.
Qed.

Lemma mapM_titleCase (l : list string) :
  mapM titleCase (map VStr l) = Return (map (fun s => VStr (title_case s)) l).
Proof.
  induction l as [|s l IH]; [reflexivity|].
  cbn [map mapM]. rewrite titleCase_string. cbn [cbind]. now rewrite IH.
Qed.

(** ** The Auth section and the oauth step in a returning run *)

Lemma authSection_result (config ac ac' : obj) :
  authSection config ac = Return ac' ->
  exists mfa passwordFormat attributes e p,
    opt_includes (get config "aws_cognito_username_attributes") "EMAIL" = Return e
    /\ opt_includes (get config "aws_cognito_username_attributes") "PHONE_NUMBER" = Return p
    /\ ac' =
         if truthy (get config "aws_cognito_identity_pool_id")
            || truthy (get config "aws_user_pools_id")
         then set ac "Auth"
                (authValue config mfa passwordFormat attributes (VObj (loginWith e p)))
         else ac.
Proof.
  unfold authSection. intros H. invert_binds.
  exists x, x0, x1, x2, x3. repeat split; auto.
  destruct (truthy (get config "aws_cognito_identity_pool_id")
            || truthy (get config "aws_user_pools_id")); now invert_binds.
Qed.

Lemma getOAuthConfig_shape (oauth : value) (r : obj) :
  getOAuthConfig oauth = Return r ->
  exists signIn signOut,
    getRedirectUrl (optProp oauth "redirectSignIn") = Return signIn
    /\ getRedirectUrl (optProp oauth "redirectSignOut") = Return signOut
    /\ r = [ ("domain", optProp oauth "domain");
             ("scopes", optProp oauth "scope");
             ("redirectSignIn", signIn);
             ("redirectSignOut", signOut);
             ("responseType", optProp oauth "responseType") ].
Proof.
  unfold getOAuthConfig. intros H. invert_binds. eauto.
Qed.

Lemma oauthSection_after_auth (config ac ac' : obj) (mfa passwordFormat : value)
  (attributes : obj) (e p : bool) :
  get ac "Auth" = authValue config mfa passwordFormat attributes (VObj (loginWith e p)) ->
  oauthSection config ac = Return ac' ->
  exists hasSocial,
    hasSocialProviderConfig (get config "aws_cognito_social_providers") = Return hasSocial
    /\ if hasOAuthConfig (get config "oauth") then
         exists extracted social,
           getOAuthConfig (get config "oauth") = Return extracted
           /\ socialSpread (get config "aws_cognito_social_providers") hasSocial social
           /\ ac' = set ac "Auth"
                      (authValue config mfa passwordFormat attributes
                         (VObj [ ("username", VBool (negb (e || p)));
                                 ("email", VBool e);
                                 ("phone", VBool p);
                                 ("oauth", VObj (spread extracted social)) ]))
       else ac' = ac.
Proof.
  intros A. unfold oauthSection. intros H.
  apply cbind_Return in H as (hasSocial & S & H).
  exists hasSocial. split; [assumption|].
  rewrite A in H. simpl truthy in H. cbn [andb] in H.
  destruct (hasOAuthConfig (get config "oauth")); [|now invert_binds].
  apply cbind_Return in H as (Cognito & C & H).
  apply getProp_Return in C as [_ ->].
  apply cbind_Return in H as (current & C & H).
  apply getProp_Return in C as [_ ->].
  apply cbind_Return in H as (extracted & X & H).
  apply cbind_Return in H as (social & P & H).
  destruct (getOAuthConfig_shape _ _ X) as (signIn & signOut & _ & _ & ->).
  eexists _, social. split; [eassumption|]. split.
  - unfold socialSpread. destruct hasSocial; invert_binds; eauto.
  - unfold authValue in H. simpl in H. invert_binds. reflexivity.
Qed.

Lemma touches_get (K k : string) (t : bool) (ac ac' : obj) :
  touches K t ac ac' -> k <> K -> get ac' k = get ac k.
Proof. intros [F _] N. unfold get. now rewrite F. Qed.

Lemma run_loginWith (config out : obj) (log : list string) :
  run config out log ->
  let trigger := truthy (get config "aws_cognito_identity_pool_id")
                 || truthy (get config "aws_user_pools_id") in
  let login := dig (VObj out) ["Auth"; "Cognito"; "loginWith"] in
  exists e p hasSocial,
    opt_includes (get config "aws_cognito_username_attributes") "EMAIL" = Return e
    /\ opt_includes (get config "aws_cognito_username_attributes") "PHONE_NUMBER" = Return p
    /\ hasSocialProviderConfig (get config "aws_cognito_social_providers") = Return hasSocial
    /\ (trigger = false -> login = VUndef)
    /\ (trigger = true -> hasOAuthConfig (get config "oauth") = false ->
        login = VObj (loginWith e p))
    /\ (trigger = true -> hasOAuthConfig (get config "oauth") = true ->
        exists extracted social,
          getOAuthConfig (get config "oauth") = Return extracted
          /\ socialSpread (get config "aws_cognito_social_providers") hasSocial social
          /\ login = VObj [ ("username", VBool (negb (e || p)));
                            ("email", VBool e);
                            ("phone", VBool p);
                            ("oauth", VObj (spread extracted social)) ]).
Proof.
  intros [ac1 ac2 ac3 ac4 ac5 ac7 ac8 H1 H2 H3 H4 H5 H7 H8 H9] trigger login.
  assert (O3 : hasOwnProperty ac3 "Auth" = false).
  { pose proof (analytics_touches config []) as T0.
    apply notifications_touches in H1. apply interactions_touches in H2.
    apply api_touches in H3.
    skip_step H3. skip_step H2. skip_step H1. skip_step T0. reflexivity. }
  assert (L : get out "Auth" = get ac5 "Auth").
  { pose proof (storage_touches config ac5) as T6.
    apply geo_touches in H7. apply rest_touches in H8. apply predictions_touches in H9.
    rewrite (touches_get _ _ _ _ _ H9) by discriminate.
    rewrite (touches_get _ _ _ _ _ H8) by discriminate.
    rewrite (touches_get _ _ _ _ _ H7) by discriminate.
    now rewrite (touches_get _ _ _ _ _ T6) by discriminate. }
  assert (D : login = optProp (optProp (get ac5 "Auth") "Cognito") "loginWith").
  { unfold login, dig. simpl. now rewrite L. }
  clear L H7 H8 H9 H1 H2 H3.
  destruct (authSection_result _ _ _ H4) as (mfa & pf & attrs & e & p & Ee & Ep & A4).
  fold trigger in A4.
  destruct trigger eqn:T.
  - assert (A : get ac4 "Auth" = authValue config mfa pf attrs (VObj (loginWith e p))).
    { rewrite A4. apply get_set_eq. }
    destruct (oauthSection_after_auth _ _ _ _ _ _ _ _ A H5) as (hasSocial & S & R).
    exists e, p, hasSocial. repeat split; auto; try discriminate.
    + intros _ Oa. rewrite Oa in R. subst ac5. rewrite D, A. reflexivity.
    + intros _ Oa. rewrite Oa in R. destruct R as (extracted & social & X & P & ->).
      exists extracted, social. repeat split; auto.
      rewrite D, get_set_eq. reflexivity.
  - subst ac4.
    assert (A : get ac5 "Auth" = VUndef).
    { apply get_absent; [|reflexivity].
      apply oauth_touches in H5. now rewrite (proj2 H5). }
    unfold oauthSection in H5. apply cbind_Return in H5 as (hasSocial & S & _).
    exists e, p, hasSocial. repeat split; auto; try discriminate.
    intros _. now rewrite D, A.
Qed.

Lemma is_str_eq (lit : string) (v : value) : is_str lit v = true <-> v = VStr lit.
Proof.
  destruct v; simpl; split; try discriminate.
  - intros H. apply String.eqb_eq in H. now subst.
  - intros H. inversion H. apply String.eqb_refl.
Qed.

Lemma array_includes (needle : string) (l : list value) :
  existsb (is_str needle) l = true <-> In (VStr needle) l.
Proof.
  rewrite existsb_exists. split.
  - intros (v & I & E). apply is_str_eq in E. now subst.
  - intros I. exists (VStr needle). split; [assumption | now apply is_str_eq].
Qed.

Lemma hasSocial_array (v providers : value) :
  hasSocialProviderConfig v = Return true ->
  parseSocialProviders v = Return providers ->
  exists l, v = VArr l /\ l <> [].
Proof.
  intros H P. destruct v; try discriminate.
  - exists l. split; [reflexivity|]. intros ->. discriminate.
  - unfold parseSocialProviders, call_map, no_method in P.
    destruct (callable (get o "map")); discriminate.
Qed.

(** ** Notifications *)

Lemma truthy_optProp (v : value) (k : string) :
  truthy (optProp v k) = true -> nullish v = false.
Proof. destruct v; simpl; auto; discriminate. Qed.

Lemma inAppMessagingStep_result (InAppMessaging : value) (ac : obj) :
  truthy (optProp InAppMessaging "AWSPinpoint") = true ->
  inAppMessagingStep InAppMessaging ac =
    Return (set ac "Notifications"
              (VObj [ ("InAppMessaging",
                       pinpoint (optProp (optProp InAppMessaging "AWSPinpoint") "appId")
                                (optProp (optProp InAppMessaging "AWSPinpoint") "region")) ])).
Proof.
  intros T. unfold inAppMessagingStep. rewrite T.
  rewrite (getProp_defined InAppMessaging) by (eapply truthy_optProp; eauto).
  cbn [cbind]. now rewrite !getProp_defined by now apply truthy_not_nullish.
Qed.

Lemma pushStep_result (Push : value) (ac : obj) :
  truthy (optProp Push "AWSPinpoint") = true ->
  pushStep Push ac =
    Return (set ac "Notifications"
              (VObj (set (spread [] (get ac "Notifications")) "PushNotification"
                       (pinpoint (optProp (optProp Push "AWSPinpoint") "appId")
                                 (optProp (optProp Push "AWSPinpoint") "region"))))).
Proof.
  intros T. unfold pushStep. rewrite T.
  rewrite (getProp_defined Push) by (eapply truthy_optProp; eauto).
  cbn [cbind]. now rewrite !getProp_defined by now apply truthy_not_nullish.
Qed.

(** ** The GraphQL section and its default auth mode *)

Lemma apiSection_result (config ac : obj) (key : string) :
  truthy (get config "aws_appsync_graphqlEndpoint") = true ->
  toString (get config "aws_appsync_authenticationType") = Return key ->
  apiSection config ac =
    (Return (set ac "API"
       (VObj [ ("GraphQL",
          VObj (let GraphQL :=
                  graphQLValue config (coalesce (get authTypeMapping key) (VStr "iam")) in
                if truthy (get config "modelIntrospection")
                then set GraphQL "modelIntrospection" (get config "modelIntrospection")
                else GraphQL)) ])),
     if truthy (get authTypeMapping key) then [] else [fallbackMessage key]).
Proof.
  intros T K. unfold apiSection. rewrite T, K. unfold mbind, lift. cbn [fst snd].
  destruct (truthy (get authTypeMapping key)); reflexivity.
Qed.

(** The seven entries of the table. *)
Lemma authTypeMapping_entries :
  get authTypeMapping "API_KEY" = VStr "apiKey"
  /\ get authTypeMapping "AWS_IAM" = VStr "iam"
  /\ get authTypeMapping "AMAZON_COGNITO_USER_POOLS" = VStr "userPool"
  /\ get authTypeMapping "OPENID_CONNECT" = VStr "oidc"
  /\ get authTypeMapping "NONE" = VStr "none"
  /\ get authTypeMapping "AWS_LAMBDA" = VStr "lambda"
  /\ get authTypeMapping "LAMBDA" = VStr "lambda".
Proof. repeat split. Qed.

(** A key that is neither in the table nor a member of [Object.prototype]
    looks up to [undefined]; a member of [Object.prototype] that is not in
    the table looks up to that member, which is truthy and not nullish. *)
Lemma authTypeMapping_outside (key : string) :
  hasOwnProperty authTypeMapping key = false ->
  match objectPrototype key with
  | None => get authTypeMapping key = VUndef
  | Some b => get authTypeMapping key = VBuiltin b
  end.
Proof.
  unfold hasOwnProperty, get. destruct (get_own authTypeMapping key); [discriminate|].
  now destruct (objectPrototype key).
Qed.

Lemma authTypeMapping_truthy (key : string) :
  hasOwnProperty authTypeMapping key = true ->
  truthy (get authTypeMapping key) = true /\ nullish (get authTypeMapping key) = false.
Proof.
  unfold hasOwnProperty, get, authTypeMapping. cbn [get_own].
  repeat match goal with
         | |- context [String.eqb ?a key] => destruct (String.eqb a key); [now split|]
         end.
  discriminate.
Qed.

(** In a returning run with a truthy GraphQL endpoint, for an
    authentication type that converts to the property key [key]:
    [defaultAuthMode] is the table entry of [key] when there is one, with
    no log; when [key] is neither in the table nor a member of
    [Object.prototype] it is ['iam'] and the one log line is the fallback
    message. *)
Theorem defaultAuthMode_outside_prototype (config out : obj) (log : list string)
  (key : string) :
  parseAWSExports config = (Return out, log) ->
  truthy (get config "aws_appsync_graphqlEndpoint") = true ->
  toString (get config "aws_appsync_authenticationType") = Return key ->
  objectPrototype key = None ->
  let mode := dig (VObj out) ["API"; "GraphQL"; "defaultAuthMode"] in
  if hasOwnProperty authTypeMapping key
  then mode = get authTypeMapping key /\ log = []
  else mode = VStr "iam" /\ log = [fallbackMessage key].
Proof.
  intros H T K P mode. apply parse_run in H. destruct H as [_ R].
  destruct R as [ac1 ac2 ac3 ac4 ac5 ac7 ac8 H1 H2 H3 H4 H5 H7 H8 H9].
  rewrite (apiSection_result _ _ _ T K) in H3. injection H3 as A3 L.
  assert (G : optProp (get out "API") "GraphQL" =
              optProp (get ac3 "API") "GraphQL").
  { pose proof (storage_touches config ac5) as T6.
    apply auth_touches in H4. apply oauth_touches in H5. apply geo_touches in H7.
    apply predictions_touches in H9.
    rewrite (touches_get _ _ _ _ _ H9) by discriminate.
    assert (E8 : optProp (get ac8 "API") "GraphQL" = optProp (get ac7 "API") "GraphQL").
    { unfold restSection in H8.
      destruct (truthy (get config "aws_cloud_logic_custom")); invert_binds; [|reflexivity].
      rewrite get_set_eq. cbn [optProp]. rewrite get_set_neq by discriminate.
      rewrite (touches_get _ _ _ _ _ H7) by discriminate.
      rewrite (touches_get _ _ _ _ _ T6) by discriminate.
      rewrite (touches_get _ _ _ _ _ H5) by discriminate.
      rewrite (touches_get _ _ _ _ _ H4) by discriminate.
      rewrite get_set_eq. reflexivity. }
    rewrite E8.
    rewrite (touches_get _ _ _ _ _ H7) by discriminate.
    rewrite (touches_get _ _ _ _ _ T6) by discriminate.
    rewrite (touches_get _ _ _ _ _ H5) by discriminate.
    now rewrite (touches_get _ _ _ _ _ H4) by discriminate. }
  assert (M : mode = coalesce (get authTypeMapping key) (VStr "iam")).
  { unfold mode, dig. cbn [fold_left]. change (optProp (VObj out) "API") with (get out "API").
    rewrite G, <- A3, get_set_eq.
    destruct (truthy (get config "modelIntrospection")); reflexivity. }
  subst log.
  destruct (hasOwnProperty authTypeMapping key) eqn:O.
  - destruct (authTypeMapping_truthy _ O) as [Tr Nu].
    rewrite Tr. split; [|reflexivity]. rewrite M. unfold coalesce. now rewrite Nu.
  - pose proof (authTypeMapping_outside _ O) as U. rewrite P in U.
    rewrite M, U. split; reflexivity.
Qed.

Lemma defaultAuthMode_witness :
  dig (VObj (output_of without_region_fixed)) ["API"; "GraphQL"; "defaultAuthMode"] = VStr "iam"
  /\ log_of without_region_fixed = [fallbackMessage "UNKNOWN"].
Proof.
  apply (defaultAuthMode_outside_prototype without_region_fixed
           (output_of without_region_fixed) (log_of without_region_fixed) "UNKNOWN"
           eq_refl eq_refl eq_refl eq_refl).
Defined.

(** ** Totality on well-shaped input *)

Lemma notifications_total (config ac : obj) :
  exists ac', notificationsSection config ac = Return ac'.
Proof.
  unfold notificationsSection.
  rewrite !getProp_defined by now destruct (get config "Notifications").
  cbn [cbind].
  set (I := optProp (coalesce (get config "Notifications") (VObj [])) "InAppMessaging").
  set (P := optProp (coalesce (get config "Notifications") (VObj [])) "Push").
  assert (Pt : forall a, exists a', pushStep P a = Return a').
  { intros a. destruct (truthy (optProp P "AWSPinpoint")) eqn:T.
    - eexists. now apply pushStep_result.
    - exists a. unfold pushStep. now rewrite T. }
  destruct (truthy (optProp I "AWSPinpoint")) eqn:T; cbn [orb].
  - rewrite (inAppMessagingStep_result _ _ T). cbn [cbind]. apply Pt.
  - destruct (truthy (optProp P "AWSPinpoint")) eqn:T'; [|eauto].
    unfold inAppMessagingStep. rewrite T. cbn [cbind]. apply Pt.
Qed.

Lemma toString_primitive (v : value) :
  primitive v = true -> exists s, toString v = Return s.
Proof. destruct v as [| |[]| | | | |]; simpl; try discriminate; eauto. Qed.

Lemma named_entries_mapM (l : list value) :
  forallb (fun e => negb (nullish e) && primitive (optProp e "name")) l = true ->
  mapM (fun bot => name <- getProp bot "name" ;; Return (name, bot)) l
  = Return (map (fun bot => (optProp bot "name", bot)) l).
Proof.
  induction l as [|e l IH]; [reflexivity|].
  cbn [forallb]. intros H. apply andb_true_iff in H as [He Hl].
  apply andb_true_iff in He as [Ne _]. apply negb_true_iff in Ne.
  cbn [mapM map]. rewrite getProp_defined by assumption. cbn [cbind].
  now rewrite IH.
Qed.

Lemma fromEntries_total (l : list value) (acc : obj) :
  forallb (fun e => negb (nullish e) && primitive (optProp e "name")) l = true ->
  exists o,
    foldM (fun o kv => key <- toString (fst kv) ;; Return (set o key (snd kv)))
          (map (fun bot => (optProp bot "name", bot)) l) acc = Return o.
Proof.
  revert acc. induction l as [|e l IH]; intros acc H; [simpl; eauto|].
  cbn [forallb] in H. apply andb_true_iff in H as [He Hl].
  apply andb_true_iff in He as [_ Pe].
  destruct (toString_primitive _ Pe) as (s & Es).
  cbn [map foldM fst snd]. rewrite Es. cbn [cbind]. now apply IH.
Qed.

Lemma interactions_total (config ac : obj) :
  negb (is_array (get config "aws_bots_config"))
  || named_entries (get config "aws_bots_config") = true ->
  exists ac', interactionsSection config ac = Return ac'.
Proof.
  unfold interactionsSection. destruct (get config "aws_bots_config"); eauto.
  cbn [is_array negb orb named_entries]. intros H.
  rewrite (named_entries_mapM _ H). cbn [cbind]. unfold fromEntries.
  destruct (fromEntries_total l [] H) as (o & ->). cbn [cbind]. eauto.
Qed.

Lemma api_total (config ac : obj) :
  negb (truthy (get config "aws_appsync_graphqlEndpoint"))
  || primitive (get config "aws_appsync_authenticationType") = true ->
  exists ac' log, apiSection config ac = (Return ac', log).
Proof.
  destruct (truthy (get config "aws_appsync_graphqlEndpoint")) eqn:T; cbn [negb orb].
  - intros P. destruct (toString_primitive _ P) as (key & K).
    rewrite (apiSection_result _ _ _ T K). eauto.
  - intros _. unfold apiSection. rewrite T. unfold mret. eauto.
Qed.

Lemma searchable_includes (v : value) (needle : string) :
  searchable v = true -> exists b, opt_includes v needle = Return b.
Proof.
  unfold searchable, opt_includes. destruct v; simpl; try discriminate; eauto.
Qed.

Lemma mfaConfig_total (config : obj) :
  negb (truthy (get config "aws_cognito_mfa_configuration"))
  || (is_string (get config "aws_cognito_mfa_configuration")
      && searchable (get config "aws_cognito_mfa_types")) = true ->
  exists v, mfaConfig config = Return v.
Proof.
  unfold mfaConfig.
  destruct (truthy (get config "aws_cognito_mfa_configuration")); cbn [negb orb]; [|eauto].
  intros H. apply andb_true_iff in H as [S T].
  destruct (get config "aws_cognito_mfa_configuration"); try discriminate.
  cbn [call_toLowerCase cbind].
  destruct (searchable_includes _ "TOTP" T) as (b1 & ->).
  destruct (searchable_includes _ "SMS" T) as (b2 & ->).
  cbn [cbind]. eauto.
Qed.

Lemma passwordFormatConfig_total (config : obj) :
  negb (truthy (get config "aws_cognito_password_protection_settings"))
  || searchable (optProp (get config "aws_cognito_password_protection_settings")
                   "passwordPolicyCharacters") = true ->
  exists v, passwordFormatConfig config = Return v.
Proof.
  unfold passwordFormatConfig, requires.
  destruct (truthy (get config "aws_cognito_password_protection_settings")) eqn:T;
    cbn [negb orb]; [|eauto].
  intros S. apply truthy_not_nullish in T.
  rewrite !getProp_defined by assumption. cbn [cbind].
  destruct (searchable_includes _ "REQUIRES_LOWERCASE" S) as (b1 & ->).
  destruct (searchable_includes _ "REQUIRES_UPPERCASE" S) as (b2 & ->).
  destruct (searchable_includes _ "REQUIRES_NUMBERS" S) as (b3 & ->).
  destruct (searchable_includes _ "REQUIRES_SYMBOLS" S) as (b4 & ->).
  cbn [cbind]. eauto.
Qed.

Lemma chars_strings (s : string) : forallb is_string (map VStr (chars s)) = true.
Proof. induction s; simpl; auto. Qed.

Lemma string_seq_iterate (v : value) :
  string_seq v = true ->
  exists l, iterate (coalesce v (VArr [])) = Return l /\ forallb is_string l = true.
Proof.
  unfold string_seq. destruct v; simpl; try discriminate; eauto.
  intros _. eexists. split; [reflexivity | apply chars_strings].
Qed.

Lemma dedup_fold_strings (l seen : list value) :
  forallb is_string seen = true ->
  forallb is_string l = true ->
  forallb is_string
    (fold_left (fun seen x => if existsb (sameValueZero x) seen then seen else seen ++ [x])
               l seen) = true.
Proof.
  revert seen. induction l as [|x l IH]; intros seen Hs H; [exact Hs|].
  cbn [forallb] in H. apply andb_true_iff in H as [Hx Hl].
  cbn [fold_left]. apply IH; [|exact Hl].
  destruct (existsb (sameValueZero x) seen); [exact Hs|].
  rewrite forallb_app, Hs. simpl. now rewrite Hx.
Qed.

Lemma dedup_strings (l : list value) :
  forallb is_string l = true -> forallb is_string (dedup l) = true.
Proof. intros H. unfold dedup. now apply dedup_fold_strings. Qed.

Lemma userAttributes_fold (l : list value) (acc : obj) :
  forallb is_string l = true ->
  exists o,
    foldM (fun attributes key =>
             lowered <- call_toLowerCase key ;;
             Return (set (spread [] (VObj attributes)) lowered
                       (VObj (literal [ ("required", VBool true) ]))))
          l acc = Return o.
Proof.
  revert acc. induction l as [|x l IH]; intros acc H; [simpl; eauto|].
  cbn [forallb] in H. apply andb_true_iff in H as [Hx Hl].
  destruct x; try discriminate.
  cbn [foldM call_toLowerCase cbind]. now apply IH.
Qed.

Lemma userAttributes_total (config : obj) :
  string_seq (get config "aws_cognito_verification_mechanisms") = true ->
  string_seq (get config "aws_cognito_signup_attributes") = true ->
  exists o, userAttributes config = Return o.
Proof.
  intros V S. unfold userAttributes.
  destruct (string_seq_iterate _ V) as (a & -> & Ha).
  destruct (string_seq_iterate _ S) as (b & -> & Hb).
  cbn [cbind]. apply userAttributes_fold. apply dedup_strings.
  now rewrite forallb_app, Ha, Hb.
Qed.

Lemma auth_total (config ac : obj) :
  negb (truthy (get config "aws_cognito_mfa_configuration"))
  || (is_string (get config "aws_cognito_mfa_configuration")
      && searchable (get config "aws_cognito_mfa_types")) = true ->
  negb (truthy (get config "aws_cognito_password_protection_settings"))
  || searchable (optProp (get config "aws_cognito_password_protection_settings")
                   "passwordPolicyCharacters") = true ->
  string_seq (get config "aws_cognito_verification_mechanisms") = true ->
  string_seq (get config "aws_cognito_signup_attributes") = true ->
  searchable (get config "aws_cognito_username_attributes") = true ->
  exists ac', authSection config ac = Return ac'.
Proof.
  intros Hm Hp Hv Hs Hu. unfold authSection.
  destruct (mfaConfig_total _ Hm) as (mfa & ->).
  destruct (passwordFormatConfig_total _ Hp) as (pf & ->).
  destruct (userAttributes_total _ Hv Hs) as (attrs & ->).
  destruct (searchable_includes _ "EMAIL" Hu) as (e & ->).
  destruct (searchable_includes _ "PHONE_NUMBER" Hu) as (p & ->).
  cbn [cbind].
  destruct (truthy (get config "aws_cognito_identity_pool_id")
            || truthy (get config "aws_user_pools_id")); eauto.
Qed.

Lemma strings_of (l : list value) :
  forallb is_string l = true -> exists names, l = map VStr names.
Proof.
  induction l as [|x l IH]; intros H; [now exists []|].
  cbn [forallb] in H. apply andb_true_iff in H as [Hx Hl].
  destruct (IH Hl) as (names & ->). destruct x; try discriminate.
  now exists (s :: names).
Qed.

Lemma hasSocialProviderConfig_total (v : value) :
  negb (truthy v) || string_list v = true ->
  exists b, hasSocialProviderConfig v = Return b.
Proof.
  unfold hasSocialProviderConfig. destruct (truthy v) eqn:T; cbn [negb orb]; [|eauto].
  destruct v; try discriminate. intros _. simpl. eauto.
Qed.

Lemma parseSocialProviders_total (v : value) :
  string_list v = true -> exists r, parseSocialProviders v = Return r.
Proof.
  destruct v; try discriminate. cbn [string_list]. intros H.
  destruct (strings_of _ H) as (names & ->).
  unfold parseSocialProviders, call_map. rewrite mapM_titleCase. cbn [cbind]. eauto.
Qed.

Lemma hasSocial_truthy (v : value) :
  hasSocialProviderConfig v = Return true -> truthy v = true.
Proof.
  unfold hasSocialProviderConfig. destruct (truthy v); [reflexivity | discriminate].
Qed.

Lemma oauth_total (config ac : obj) (mfa passwordFormat : value) (attributes : obj)
  (e p : bool) :
  let social := get config "aws_cognito_social_providers" in
  let oauth := get config "oauth" in
  negb (truthy social) || string_list social = true ->
  negb (truthy oauth)
  || (string_or_absent (optProp oauth "redirectSignIn")
      && string_or_absent (optProp oauth "redirectSignOut")) = true ->
  get ac "Auth" = authValue config mfa passwordFormat attributes (VObj (loginWith e p))
  \/ get ac "Auth" = VUndef ->
  exists ac', oauthSection config ac = Return ac'.
Proof.
  intros social oauth Hs Ho A. unfold oauthSection. fold social oauth.
  destruct (hasSocialProviderConfig_total _ Hs) as (hasSocial & S). rewrite S.
  cbn [cbind].
  destruct A as [A|A]; rewrite A; [|simpl; eauto].
  cbn [truthy authValue andb].
  destruct (hasOAuthConfig oauth) eqn:Oa; [|eauto].
  assert (T : truthy oauth = true).
  { unfold hasOAuthConfig in Oa. destruct (truthy oauth); [reflexivity | discriminate]. }
  rewrite T in Ho. cbn [negb orb] in Ho. apply andb_true_iff in Ho as [Hi Hout].
  rewrite !getProp_defined by reflexivity. cbn [cbind].
  rewrite (getOAuthConfig_result oauth (truthy_not_nullish _ T) Hi Hout). cbn [cbind].
  destruct hasSocial.
  - rewrite (hasSocial_truthy _ S) in Hs. cbn [negb orb] in Hs.
    destruct (parseSocialProviders_total _ Hs) as (r & ->). simpl. eauto.
  - simpl. eauto.
Qed.

Lemma geo_total (config ac : obj) :
  negb (truthy (get config "geo"))
  || negb (nullish (optProp (get config "geo") "amazon_location_service")) = true ->
  exists ac', geoSection config ac = Return ac'.
Proof.
  unfold geoSection. destruct (truthy (get config "geo")) eqn:T; cbn [negb orb]; [|eauto].
  intros N. apply negb_true_iff in N. apply truthy_not_nullish in T.
  rewrite (getProp_defined _ _ T). cbn [cbind].
  rewrite !getProp_defined by assumption. cbn [cbind]. eauto.
Qed.

Lemma restReducer_fold (l : list value) (acc : obj) :
  forallb (fun e => negb (nullish e) && primitive (optProp e "name")) l = true ->
  exists o, foldM restReducer l acc = Return o.
Proof.
  revert acc. induction l as [|x l IH]; intros acc H; [simpl; eauto|].
  cbn [forallb] in H. apply andb_true_iff in H as [Hx Hl].
  apply andb_true_iff in Hx as [Nx Px]. apply negb_true_iff in Nx.
  destruct (toString_primitive _ Px) as (key & K).
  cbn [foldM]. unfold restReducer at 1.
  rewrite !getProp_defined by assumption. cbn [cbind]. rewrite K. cbn [cbind].
  now apply IH.
Qed.

Lemma rest_total (config ac : obj) :
  negb (truthy (get config "aws_cloud_logic_custom"))
  || named_entries (get config "aws_cloud_logic_custom") = true ->
  exists ac', restSection config ac = Return ac'.
Proof.
  unfold restSection.
  destruct (truthy (get config "aws_cloud_logic_custom")); cbn [negb orb]; [|eauto].
  destruct (get config "aws_cloud_logic_custom"); try discriminate.
  cbn [named_entries call_reduce]. intros H.
  destruct (restReducer_fold l [] H) as (o & ->). cbn [cbind]. eauto.
Qed.

Lemma predictions_total (config ac : obj) :
  exists ac', predictionsSection config ac = Return ac'.
Proof.
  unfold predictionsSection.
  destruct (truthy (get config "predictions")) eqn:T; [|eauto].
  set (predictions := get config "predictions") in *.
  set (defaults := coalesce _ _).
  assert (Nd : nullish defaults = false).
  { unfold defaults, coalesce.
    destruct (nullish (optProp (optProp (optProp predictions "convert") "speechGenerator")
                         "defaults")) eqn:E; [reflexivity | exact E]. }
  rewrite (getProp_defined _ _ Nd). cbn [cbind].
  destruct (truthy (optProp defaults "VoiceId")) eqn:V; [|eauto].
  assert (Nc : nullish (optProp predictions "convert") = false).
  { destruct (nullish (optProp predictions "convert")) eqn:E; [|reflexivity].
    unfold defaults in V. rewrite (optProp_nullish _ "speechGenerator" E) in V.
    discriminate. }
  rewrite (getProp_defined _ _ (truthy_not_nullish _ T)). cbn [cbind].
  rewrite (getProp_defined _ _ Nc). cbn [cbind]. eauto.
Qed.

Lemma sections_total (config : obj) :
  well_shaped config = true -> exists out log, sections config = (Return out, log).
Proof.
  unfold well_shaped. intros W.
  repeat (apply andb_true_iff in W as [W ?]).
  destruct (notifications_total config (analyticsSection config [])) as (ac1 & R1).
  destruct (interactions_total config ac1) as (ac2 & R2); [assumption|].
  destruct (api_total config ac2) as (ac3 & log & R3); [assumption|].
  destruct (auth_total config ac3) as (ac4 & R4); try assumption.
  assert (O3 : hasOwnProperty ac3 "Auth" = false).
  { pose proof (analytics_touches config []) as T0.
    pose proof (notifications_touches _ _ _ R1) as T1.
    pose proof (interactions_touches _ _ _ R2) as T2.
    pose proof (api_touches _ _ _ _ R3) as T3.
    skip_step T3. skip_step T2. skip_step T1. skip_step T0. reflexivity. }
  destruct (authSection_result _ _ _ R4) as (mfa & pf & attrs & e & p & _ & _ & A4).
  destruct (oauth_total config ac4 mfa pf attrs e p) as (ac5 & R5); try assumption.
  { rewrite A4.
    destruct (truthy (get config "aws_cognito_identity_pool_id")
              || truthy (get config "aws_user_pools_id")).
    - left. apply get_set_eq.
    - right. now apply get_absent. }
  destruct (geo_total config (storageSection config ac5)) as (ac7 & R7); [assumption|].
  destruct (rest_total config ac7) as (ac8 & R8); [assumption|].
  destruct (predictions_total config ac8) as (out & R9).
  exists out, log. apply sections_run. econstructor; eassumption.
Qed.

Lemma geoSection_result (config ac : obj) :
  truthy (get config "geo") = true ->
  nullish (optProp (get config "geo") "amazon_location_service") = false ->
  geoSection config ac =
    Return (set ac "Geo"
      (VObj [ ("LocationService",
         let service := optProp (get config "geo") "amazon_location_service" in
         VObj [ ("maps", optProp service "maps");
                ("geofenceCollections", optProp service "geofenceCollections");
                ("searchIndices", optProp service "search_indices");
                ("region", optProp service "region") ]) ])).
Proof.
  intros T N. unfold geoSection. rewrite T.
  rewrite (getProp_defined _ _ (truthy_not_nullish _ T)). cbn [cbind].
  now rewrite !getProp_defined by assumption.
Qed.

(** ** Well-formed objects under [set], [assign] and spread *)

Lemma hasOwnProperty_In (o : obj) (k : string) :
  hasOwnProperty o k = true <-> In k (map fst o).
Proof.
  unfold hasOwnProperty. induction o as [|[k' v] o IH]; simpl.
  - split; [discriminate | contradiction].
  - destruct (String.eqb k' k) eqn:E.
    + apply String.eqb_eq in E. split; auto.
    + apply String.eqb_neq in E. rewrite IH. split; [auto | intros [C|I]; [contradiction | exact I]].
Qed.

Lemma set_absent (o : obj) (k : string) (v : value) :
  hasOwnProperty o k = false -> set o k v = o ++ [(k, v)].
Proof.
  unfold hasOwnProperty. induction o as [|[k' v'] o IH]; simpl; [reflexivity|].
  destruct (String.eqb k' k); [discriminate|]. intros H. now rewrite IH.
Qed.

Lemma keys_set_present (o : obj) (k : string) (v : value) :
  hasOwnProperty o k = true -> map fst (set o k v) = map fst o.
Proof.
  unfold hasOwnProperty. induction o as [|[k' v'] o IH]; simpl; [discriminate|].
  destruct (String.eqb k' k); simpl; [reflexivity|]. intros H. now rewrite IH.
Qed.

Lemma well_formed_set (o : obj) (k : string) (v : value) :
  well_formed o -> well_formed (set o k v).
Proof.
  unfold well_formed. intros W. destruct (hasOwnProperty o k) eqn:E.
  - now rewrite keys_set_present.
  - rewrite (set_absent _ _ _ E), map_app. simpl.
    apply NoDup_app; [exact W | repeat constructor; auto |].
    intros x I [<-|[]]. apply hasOwnProperty_In in I. congruence.
Qed.

Lemma assign_well_formed (t src : obj) :
  well_formed (t ++ src) -> assign t src = t ++ src.
Proof.
  unfold assign. revert t. induction src as [|[k v] src IH]; intros t W; simpl.
  - now rewrite app_nil_r.
  - assert (A : hasOwnProperty t k = false).
    { destruct (hasOwnProperty t k) eqn:E; [|reflexivity].
      apply hasOwnProperty_In in E. unfold well_formed in W. rewrite map_app in W.
      simpl in W. apply NoDup_remove_2 in W. exfalso. apply W.
      apply in_or_app. now left. }
    rewrite (set_absent _ _ _ A).
    rewrite IH; rewrite <- app_assoc; [reflexivity | exact W].
Qed.

(** ** The log of a run *)

Lemma snd_mbind_lift {A B} (c : completion A) (f : A -> M B) :
  snd (mbind (lift c) f) = match c with Return a => snd (f a) | _ => [] end.
Proof. destruct c; reflexivity. Qed.

Lemma snd_mbind {A B} (m : M A) (f : A -> M B) :
  snd (mbind m f) = snd m ++ match fst m with Return a => snd (f a) | _ => [] end.
Proof. destruct m as [[a|e|] l]; simpl; auto using app_nil_r. Qed.

Lemma apiSection_log (config ac : obj) :
  snd (apiSection config ac) = []
  \/ exists key,
       truthy (get config "aws_appsync_graphqlEndpoint") = true
       /\ toString (get config "aws_appsync_authenticationType") = Return key
       /\ truthy (get authTypeMapping key) = false
       /\ snd (apiSection config ac) = [fallbackMessage key].
Proof.
  destruct (truthy (get config "aws_appsync_graphqlEndpoint")) eqn:T.
  - destruct (toString (get config "aws_appsync_authenticationType")) as [key| |] eqn:K.
    + rewrite (apiSection_result _ _ _ T K). cbn [snd].
      destruct (truthy (get authTypeMapping key)) eqn:G; [now left|].
      right. exists key. auto.
    + left. unfold apiSection. rewrite T, K. reflexivity.
    + left. unfold apiSection. rewrite T, K. reflexivity.
  - left. unfold apiSection. now rewrite T.
Qed.

Lemma sections_log (config : obj) :
  snd (sections config) = []
  \/ exists ac, snd (sections config) = snd (apiSection config ac).
Proof.
  unfold sections. rewrite snd_mbind_lift.
  destruct (notificationsSection config (analyticsSection config [])) as [ac1| |];
    [|now left..].
  rewrite snd_mbind_lift. destruct (interactionsSection config ac1) as [ac2| |]; [|now left..].
  right. exists ac2. rewrite snd_mbind.
  destruct (fst (apiSection config ac2)) as [ac3| |]; [|apply app_nil_r..].
  rewrite snd_mbind_lift. destruct (authSection config ac3) as [ac4| |]; [|apply app_nil_r..].
  rewrite snd_mbind_lift. destruct (oauthSection config ac4) as [ac5| |]; [|apply app_nil_r..].
  rewrite snd_mbind_lift.
  destruct (geoSection config (storageSection config ac5)) as [ac7| |]; [|apply app_nil_r..].
  rewrite snd_mbind_lift. destruct (restSection config ac7) as [ac8| |]; [|apply app_nil_r..].
  apply app_nil_r.
Qed.

(** ** The translation reads nothing but its fields *)

Ltac in_fields := unfold fields; simpl; repeat (first [left; reflexivity | right]).

Ltac same_fields H :=
  repeat match goal with
    | |- context [get ?c ?k] =>
        match type of H with
        | forall k, In k fields -> get c k = get _ k => rewrite (H k) by in_fields
        end
    end;
  reflexivity.

Lemma mbind_ext {A B} (m : M A) (f g : A -> M B) :
  (forall a, f a = g a) -> mbind m f = mbind m g.
Proof. intros H. unfold mbind. destruct (fst m); now rewrite ?H. Qed.

Lemma sections_same_fields (c1 c2 : obj) :
  (forall k, In k fields -> get c1 k = get c2 k) -> sections c1 = sections c2.
Proof.
  intros H.
  assert (E0 : forall ac, analyticsSection c1 ac = analyticsSection c2 ac).
  { intros ac. unfold analyticsSection. same_fields H. }
  assert (E1 : forall ac, notificationsSection c1 ac = notificationsSection c2 ac).
  { intros ac. unfold notificationsSection. same_fields H. }
  assert (E2 : forall ac, interactionsSection c1 ac = interactionsSection c2 ac).
  { intros ac. unfold interactionsSection. same_fields H. }
  assert (E3 : forall ac, apiSection c1 ac = apiSection c2 ac).
  { intros ac. unfold apiSection. same_fields H. }
  assert (E4 : forall ac, authSection c1 ac = authSection c2 ac).
  { intros ac. unfold authSection, mfaConfig, passwordFormatConfig, userAttributes.
    same_fields H. }
  assert (E5 : forall ac, oauthSection c1 ac = oauthSection c2 ac).
  { intros ac. unfold oauthSection. same_fields H. }
  assert (E6 : forall ac, storageSection c1 ac = storageSection c2 ac).
  { intros ac. unfold storageSection. same_fields H. }
  assert (E7 : forall ac, geoSection c1 ac = geoSection c2 ac).
  { intros ac. unfold geoSection. same_fields H. }
  assert (E8 : forall ac, restSection c1 ac = restSection c2 ac).
  { intros ac. unfold restSection. same_fields H. }
  assert (E9 : forall ac, predictionsSection c1 ac = predictionsSection c2 ac).
  { intros ac. unfold predictionsSection. same_fields H. }
  unfold sections. rewrite E0, E1.
  apply mbind_ext. intros a1. rewrite E2.
  apply mbind_ext. intros a2. rewrite E3.
  apply mbind_ext. intros a3. rewrite E4.
  apply mbind_ext. intros a4. rewrite E5.
  apply mbind_ext. intros a5. rewrite E6, E7.
  apply mbind_ext. intros a7. rewrite E8.
  apply mbind_ext. intros a8. now rewrite E9.
Qed.

(** ** The Cognito object of a returning run *)

Lemma authSection_parts (config ac ac' : obj) :
  authSection config ac = Return ac' ->
  exists mfa passwordFormat attributes e p,
    mfaConfig config = Return mfa
    /\ passwordFormatConfig config = Return passwordFormat
    /\ userAttributes config = Return attributes
    /\ ac' =
         if truthy (get config "aws_cognito_identity_pool_id")
            || truthy (get config "aws_user_pools_id")
         then set ac "Auth"
                (authValue config mfa passwordFormat attributes (VObj (loginWith e p)))
         else ac.
Proof.
  unfold authSection. intros H.
  apply cbind_Return in H as (mfa & Em & H).
  apply cbind_Return in H as (pf & Ep & H).
  apply cbind_Return in H as (attrs & Ea & H).
  apply cbind_Return in H as (e & _ & H).
  apply cbind_Return in H as (p & _ & H).
  exists mfa, pf, attrs, e, p. repeat split; auto.
  destruct (truthy (get config "aws_cognito_identity_pool_id")
            || truthy (get config "aws_user_pools_id")); now inversion H.
Qed.

Lemma run_cognito (config out : obj) (log : list string) :
  run config out log ->
  truthy (get config "aws_cognito_identity_pool_id")
  || truthy (get config "aws_user_pools_id") = true ->
  exists mfa passwordFormat attributes login,
    mfaConfig config = Return mfa
    /\ passwordFormatConfig config = Return passwordFormat
    /\ userAttributes config = Return attributes
    /\ get out "Auth" = authValue config mfa passwordFormat attributes login.
Proof.
  intros [ac1 ac2 ac3 ac4 ac5 ac7 ac8 H1 H2 H3 H4 H5 H7 H8 H9] T.
  assert (L : get out "Auth" = get ac5 "Auth").
  { pose proof (storage_touches config ac5) as T6.
    apply geo_touches in H7. apply rest_touches in H8. apply predictions_touches in H9.
    rewrite (touches_get _ _ _ _ _ H9) by discriminate.
    rewrite (touches_get _ _ _ _ _ H8) by discriminate.
    rewrite (touches_get _ _ _ _ _ H7) by discriminate.
    now rewrite (touches_get _ _ _ _ _ T6) by discriminate. }
  destruct (authSection_parts _ _ _ H4) as (mfa & pf & attrs & e & p & Em & Ep & Ea & A4).
  rewrite T in A4.
  assert (A : get ac4 "Auth" = authValue config mfa pf attrs (VObj (loginWith e p))).
  { rewrite A4. apply get_set_eq. }
  destruct (oauthSection_after_auth _ _ _ _ _ _ _ _ A H5) as (hs & _ & R).
  exists mfa, pf, attrs.
  destruct (hasOAuthConfig (get config "oauth")).
  - destruct R as (x & s & _ & _ & ->). eexists. repeat split; auto.
    rewrite L. apply get_set_eq.
  - subst ac5. exists (VObj (loginWith e p)). repeat split; auto.
    rewrite L. exact A.
Qed.

Lemma opt_includes_array (l : list value) (needle : string) (b : bool) :
  opt_includes (VArr l) needle = Return b -> (b = true <-> In (VStr needle) l).
Proof. simpl. intros H. inversion H. apply array_includes. Qed.

Lemma opt_includes_absent (v : value) (needle : string) (b : bool) :
  nullish v = true -> opt_includes v needle = Return b -> b = false.
Proof. unfold opt_includes. intros ->. now inversion 1. Qed.

(** ** The user attributes *)

Lemma sameValueZero_string (s : string) (y : value) :
  sameValueZero (VStr s) y = true <-> y = VStr s.
Proof.
  destruct y; simpl; split; try discriminate.
  - intros H. apply String.eqb_eq in H. now subst.
  - intros H. inversion H. apply String.eqb_refl.
Qed.

Lemma dedup_fold_In (l seen : list value) (x : value) :
  forallb is_string l = true ->
  In x (fold_left (fun seen x => if existsb (sameValueZero x) seen then seen else seen ++ [x])
                  l seen)
  <-> In x seen \/ In x l.
Proof.
  revert seen. induction l as [|e l IH]; intros seen H; cbn [fold_left].
  - simpl. tauto.
  - cbn [forallb] in H. apply andb_true_iff in H as [He Hl].
    rewrite (IH _ Hl). destruct e as [| | | |s| | |]; try discriminate.
    destruct (existsb (sameValueZero (VStr s)) seen) eqn:E.
    + apply existsb_exists in E as (y & I & S). apply sameValueZero_string in S. subst y.
      simpl. split; [tauto | intros [?|[<-|?]]; auto].
    + rewrite in_app_iff. simpl. tauto.
Qed.

Lemma iterate_names (v : value) :
  names_or_absent v = true ->
  iterate (coalesce v (VArr [])) = Return (map VStr (names_of v)).
Proof.
  unfold names_or_absent. destruct v; try discriminate; try reflexivity.
  cbn [nullish orb string_list coalesce iterate names_of]. intros H. f_equal.
  induction l as [|e l IH]; [reflexivity|].
  cbn [forallb] in H. apply andb_true_iff in H as [He Hl].
  destruct e; try discriminate. simpl. now rewrite <- IH.
Qed.

Lemma dedup_names (ns : list string) :
  exists ns', dedup (map VStr ns) = map VStr ns' /\ forall s, In s ns' <-> In s ns.
Proof.
  assert (S : forallb is_string (map VStr ns) = true) by (induction ns; simpl; auto).
  destruct (strings_of _ (dedup_strings _ S)) as (ns' & E).
  exists ns'. split; [exact E|]. intros s.
  assert (I : forall l, In s l <-> In (VStr s) (map VStr l)).
  { intros l. rewrite in_map_iff. split.
    - intros H. now exists s.
    - intros (y & Ey & H). inversion Ey. now subst. }
  rewrite (I ns'), <- E, (I ns). unfold dedup. rewrite (dedup_fold_In _ _ _ S).
  simpl. tauto.
Qed.

Lemma existsb_same {A} (p : A -> bool) (l1 l2 : list A) :
  (forall x, In x l1 <-> In x l2) -> existsb p l1 = existsb p l2.
Proof.
  intros H. destruct (existsb p l1) eqn:E1, (existsb p l2) eqn:E2; auto.
  - apply existsb_exists in E1 as (x & I & P).
    assert (existsb p l2 = true) by (apply existsb_exists; exists x; split; [now apply H | exact P]).
    congruence.
  - apply existsb_exists in E2 as (x & I & P).
    assert (existsb p l1 = true) by (apply existsb_exists; exists x; split; [now apply H | exact P]).
    congruence.
Qed.

Lemma userAttributes_fold_result (ns : list string) (acc o : obj) :
  foldM (fun attributes key =>
           lowered <- call_toLowerCase key ;;
           Return (set (spread [] (VObj attributes)) lowered
                     (VObj (literal [ ("required", VBool true) ]))))
        (map VStr ns) acc = Return o ->
  well_formed acc ->
  well_formed o
  /\ forall k, get_own o k =
       if existsb (fun s => String.eqb (toLowerCase s) k) ns then Some required
       else get_own acc k.
Proof.
  revert acc. induction ns as [|s ns IH]; intros acc H W.
  - inversion H. subst. now split.
  - cbn [map foldM call_toLowerCase cbind] in H.
    unfold spread in H. cbn [own_entries] in H.
    rewrite (assign_well_formed [] acc W) in H. cbn [app] in H.
    destruct (IH _ H (well_formed_set _ _ _ W)) as [Wo G].
    split; [exact Wo|]. intros k. rewrite G, get_own_set. cbn [existsb].
    destruct (existsb (fun s0 => String.eqb (toLowerCase s0) k) ns);
      [now rewrite orb_true_r|].
    rewrite orb_false_r. now destruct (String.eqb (toLowerCase s) k).
Qed.

Lemma userAttributes_result (config o : obj) :
  names_or_absent (get config "aws_cognito_verification_mechanisms") = true ->
  names_or_absent (get config "aws_cognito_signup_attributes") = true ->
  userAttributes config = Return o ->
  well_formed o
  /\ forall k, get_own o k =
       if existsb (fun s => String.eqb (toLowerCase s) k)
            (names_of (get config "aws_cognito_verification_mechanisms")
             ++ names_of (get config "aws_cognito_signup_attributes"))
       then Some required else None.
Proof.
  intros V S H. unfold userAttributes in H.
  rewrite (iterate_names _ V), (iterate_names _ S) in H. cbn [cbind] in H.
  rewrite <- map_app in H.
  destruct (dedup_names (names_of (get config "aws_cognito_verification_mechanisms")
                         ++ names_of (get config "aws_cognito_signup_attributes")))
    as (ns' & E & I).
  rewrite E in H.
  destruct (userAttributes_fold_result _ _ _ H (NoDup_nil _)) as [W G].
  split; [exact W|]. intros k. rewrite G. cbn [get_own].
  now rewrite (existsb_same _ _ _ I).
Qed.

(** ** Entries keyed by name: Interactions and REST *)

Lemma find_app {A} (p : A -> bool) (l1 l2 : list A) :
  find p (l1 ++ l2) = match find p l1 with Some x => Some x | None => find p l2 end.
Proof. induction l1 as [|x l1 IH]; simpl; [reflexivity|]. now destruct (p x). Qed.

Lemma last_named_cons (k : string) (e : value) (l : list value) :
  last_named k (e :: l) =
    match last_named k l with
    | Some x => Some x
    | None => if named k e then Some e else None
    end.
Proof. unfold last_named. simpl. now rewrite find_app. Qed.

Lemma mapM_entries (l : list value) (es : list (value * value)) :
  mapM (fun bot => name <- getProp bot "name" ;; Return (name, bot)) l = Return es ->
  es = map (fun bot => (optProp bot "name", bot)) l.
Proof.
  revert es. induction l as [|e l IH]; intros es H; cbn [mapM] in H.
  - now inversion H.
  - apply cbind_Return in H as (x & E & H).
    apply cbind_Return in E as (n & En & E). apply getProp_Return in En as [_ ->].
    apply cbind_Return in H as (r & Er & H).
    inversion E. inversion H. subst. simpl. f_equal. now apply IH.
Qed.

Lemma fromEntries_lookup (l : list value) (acc o : obj) :
  foldM (fun o kv => key <- toString (fst kv) ;; Return (set o key (snd kv)))
        (map (fun bot => (optProp bot "name", bot)) l) acc = Return o ->
  well_formed acc ->
  well_formed o
  /\ forall k, get_own o k =
       match last_named k l with Some bot => Some bot | None => get_own acc k end.
Proof.
  revert acc. induction l as [|e l IH]; intros acc H W.
  - inversion H. subst. now split.
  - cbn [map foldM fst snd] in H. apply cbind_Return in H as (acc' & E & H).
    apply cbind_Return in E as (key & K & E). inversion E. subst acc'.
    destruct (IH _ H (well_formed_set _ _ _ W)) as [Wo G].
    split; [exact Wo|]. intros k. rewrite G, last_named_cons.
    destruct (last_named k l); [reflexivity|].
    rewrite get_own_set. unfold named. rewrite K.
    now destruct (String.eqb key k).
Qed.



Lemma run_interactions (config out : obj) (log : list string) (bots : list value) :
  run config out log ->
  get config "aws_bots_config" = VArr bots ->
  exists LexV1,
    fromEntries (map (fun bot => (optProp bot "name", bot)) bots) = Return LexV1
    /\ get out "Interactions" = VObj [ ("LexV1", VObj LexV1) ].
Proof.
  intros [ac1 ac2 ac3 ac4 ac5 ac7 ac8 H1 H2 H3 H4 H5 H7 H8 H9] B.
  pose proof (storage_touches config ac5) as T6.
  apply api_touches in H3. apply auth_touches in H4. apply oauth_touches in H5.
  apply geo_touches in H7. apply rest_touches in H8. apply predictions_touches in H9.
  rewrite (touches_get _ _ _ _ _ H9) by discriminate.
  rewrite (touches_get _ _ _ _ _ H8) by discriminate.
  rewrite (touches_get _ _ _ _ _ H7) by discriminate.
  rewrite (touches_get _ _ _ _ _ T6) by discriminate.
  rewrite (touches_get _ _ _ _ _ H5) by discriminate.
  rewrite (touches_get _ _ _ _ _ H4) by discriminate.
  rewrite (touches_get _ _ _ _ _ H3) by discriminate.
  unfold interactionsSection in H2. rewrite B in H2.
  apply cbind_Return in H2 as (es & E & H2). apply mapM_entries in E. subst es.
  apply cbind_Return in H2 as (LexV1 & F & H2). inversion H2.
  exists LexV1. split; [exact F|]. now rewrite get_set_eq.
Qed.

(** ** The API object of a returning run *)

Lemma apiSection_Return (config ac ac' : obj) (log : list string) :
  apiSection config ac = (Return ac', log) ->
  if truthy (get config "aws_appsync_graphqlEndpoint")
  then exists key,
         toString (get config "aws_appsync_authenticationType") = Return key
         /\ ac' = set ac "API" (VObj [ ("GraphQL", VObj (graphQLResult config key)) ])
  else ac' = ac.
Proof.
  intros H. destruct (truthy (get config "aws_appsync_graphqlEndpoint")) eqn:T.
  - destruct (toString (get config "aws_appsync_authenticationType")) as [key| |] eqn:K.
    + rewrite (apiSection_result _ _ _ T K) in H. injection H as <- _.
      exists key. split; reflexivity.
    + unfold apiSection in H. rewrite T, K in H. discriminate.
    + unfold apiSection in H. rewrite T, K in H. discriminate.
  - unfold apiSection in H. rewrite T in H. now inversion H.
Qed.

Lemma run_api (config out : obj) (log : list string) :
  run config out log ->
  let graphql := truthy (get config "aws_appsync_graphqlEndpoint") in
  let rest := truthy (get config "aws_cloud_logic_custom") in
  exists key REST,
    (graphql = true -> toString (get config "aws_appsync_authenticationType") = Return key)
    /\ (rest = true ->
        call_reduce (get config "aws_cloud_logic_custom") restReducer [] = Return REST)
    /\ get out "API" =
         if graphql
         then if rest
              then VObj [ ("GraphQL", VObj (graphQLResult config key)); ("REST", VObj REST) ]
              else VObj [ ("GraphQL", VObj (graphQLResult config key)) ]
         else if rest then VObj [ ("REST", VObj REST) ] else VUndef.
Proof.
  intros [ac1 ac2 ac3 ac4 ac5 ac7 ac8 H1 H2 H3 H4 H5 H7 H8 H9] graphql rest.
  assert (O2 : hasOwnProperty ac2 "API" = false).
  { pose proof (analytics_touches config []) as T0.
    apply notifications_touches in H1. apply interactions_touches in H2.
    skip_step H2. skip_step H1. skip_step T0. reflexivity. }
  assert (A7 : get ac7 "API" = get ac3 "API").
  { pose proof (storage_touches config ac5) as T6.
    apply auth_touches in H4. apply oauth_touches in H5. apply geo_touches in H7.
    rewrite (touches_get _ _ _ _ _ H7) by discriminate.
    rewrite (touches_get _ _ _ _ _ T6) by discriminate.
    rewrite (touches_get _ _ _ _ _ H5) by discriminate.
    now rewrite (touches_get _ _ _ _ _ H4) by discriminate. }
  apply predictions_touches in H9.
  rewrite (touches_get _ _ _ _ _ H9) by discriminate.
  apply apiSection_Return in H3. fold graphql in H3.
  assert (A3 : exists key,
             (graphql = true ->
              toString (get config "aws_appsync_authenticationType") = Return key)
             /\ get ac3 "API" =
                  if graphql then VObj [ ("GraphQL", VObj (graphQLResult config key)) ]
                  else VUndef).
  { destruct graphql.
    - destruct H3 as (key & K & ->). exists key. split; [auto | apply get_set_eq].
    - subst ac3. exists "". split; [discriminate | now apply get_absent]. }
  destruct A3 as (key & K & A3). rewrite <- A7 in A3. exists key.
  unfold restSection in H8. fold rest in H8. destruct rest.
  - apply cbind_Return in H8 as (REST & E & H8). inversion H8.
    exists REST. split; [exact K|]. split; [auto|].
    rewrite get_set_eq, A3. now destruct graphql.
  - inversion H8. subst ac8. exists []. split; [exact K|]. split; [discriminate|].
    exact A3.
Qed.

(** ** Strings: cutting, joining and title case *)

Lemma split_comma_free (s : string) : comma_free s = true -> split_comma s = [s].
Proof.
  unfold comma_free. induction s as [|c r IH]; [reflexivity|].
  simpl. intros H. apply andb_true_iff in H as [Hc Hr].
  apply negb_true_iff in Hc. rewrite Hc, (IH Hr). reflexivity.
Qed.

Lemma split_comma_append (s r : string) :
  comma_free s = true -> split_comma (s ++ String comma r)%string = s :: split_comma r.
Proof.
  unfold comma_free. induction s as [|c s IH]; [reflexivity|].
  simpl. intros H. apply andb_true_iff in H as [Hc Hs].
  apply negb_true_iff in Hc. rewrite Hc, (IH Hs). reflexivity.
Qed.

Lemma split_comma_join (l : list string) :
  l <> [] -> forallb comma_free l = true -> split_comma (join "," l) = l.
Proof.
  induction l as [|s l IH]; [contradiction|]. intros _ H.
  cbn [forallb] in H. apply andb_true_iff in H as [Hs Hl].
  destruct l as [|s' l].
  - simpl. now apply split_comma_free.
  - change (join "," (s :: s' :: l)) with (s ++ String comma (join "," (s' :: l)))%string.
    rewrite (split_comma_append _ _ Hs), IH; [reflexivity | discriminate | exact Hl].
Qed.







(** ** Notifications, Analytics, Storage and Predictions in a returning run *)

Lemma run_early_sections (config out : obj) (log : list string) :
  run config out log ->
  exists ac1,
    notificationsSection config (analyticsSection config []) = Return ac1
    /\ get out "Notifications" = get ac1 "Notifications"
    /\ get out "Analytics" = get (analyticsSection config []) "Analytics".
Proof.
  intros [ac1 ac2 ac3 ac4 ac5 ac7 ac8 H1 H2 H3 H4 H5 H7 H8 H9].
  exists ac1. split; [exact H1|].
  pose proof (storage_touches config ac5) as T6.
  apply notifications_touches in H1.
  apply interactions_touches in H2. apply api_touches in H3. apply auth_touches in H4.
  apply oauth_touches in H5. apply geo_touches in H7. apply rest_touches in H8.
  apply predictions_touches in H9.
  split.
  - rewrite (touches_get _ _ _ _ _ H9) by discriminate.
    rewrite (touches_get _ _ _ _ _ H8) by discriminate.
    rewrite (touches_get _ _ _ _ _ H7) by discriminate.
    rewrite (touches_get _ _ _ _ _ T6) by discriminate.
    rewrite (touches_get _ _ _ _ _ H5) by discriminate.
    rewrite (touches_get _ _ _ _ _ H4) by discriminate.
    rewrite (touches_get _ _ _ _ _ H3) by discriminate.
    now rewrite (touches_get _ _ _ _ _ H2) by discriminate.
  - rewrite (touches_get _ _ _ _ _ H9) by discriminate.
    rewrite (touches_get _ _ _ _ _ H8) by discriminate.
    rewrite (touches_get _ _ _ _ _ H7) by discriminate.
    rewrite (touches_get _ _ _ _ _ T6) by discriminate.
    rewrite (touches_get _ _ _ _ _ H5) by discriminate.
    rewrite (touches_get _ _ _ _ _ H4) by discriminate.
    rewrite (touches_get _ _ _ _ _ H3) by discriminate.
    rewrite (touches_get _ _ _ _ _ H2) by discriminate.
    now rewrite (touches_get _ _ _ _ _ H1) by discriminate.
Qed.

Lemma run_storage (config out : obj) (log : list string) :
  run config out log ->
  exists ac5, get out "Storage" = get (storageSection config ac5) "Storage".
Proof.
  intros [ac1 ac2 ac3 ac4 ac5 ac7 ac8 H1 H2 H3 H4 H5 H7 H8 H9].
  exists ac5.
  apply geo_touches in H7. apply rest_touches in H8. apply predictions_touches in H9.
  rewrite (touches_get _ _ _ _ _ H9) by discriminate.
  rewrite (touches_get _ _ _ _ _ H8) by discriminate.
  now rewrite (touches_get _ _ _ _ _ H7) by discriminate.
Qed.

Lemma run_last_section (config out : obj) (log : list string) :
  run config out log -> exists ac8, predictionsSection config ac8 = Return out.
Proof. intros [ac1 ac2 ac3 ac4 ac5 ac7 ac8 H1 H2 H3 H4 H5 H7 H8 H9]. eauto. Qed.

(** ** What a returning run tells about its input *)

Lemma run_geo (config out : obj) (log : list string) :
  run config out log ->
  exists ac ac', geoSection config ac = Return ac' /\ get out "Geo" = get ac' "Geo".
Proof.
  intros [ac1 ac2 ac3 ac4 ac5 ac7 ac8 H1 H2 H3 H4 H5 H7 H8 H9].
  exists (storageSection config ac5), ac7. split; [exact H7|].
  apply rest_touches in H8. apply predictions_touches in H9.
  rewrite (touches_get _ _ _ _ _ H9) by discriminate.
  now rewrite (touches_get _ _ _ _ _ H8) by discriminate.
Qed.




(** * The claims *)

(** C1. [parseAWSExports] throws its one structured error, the
    invalid-parameter [AmplifyError], exactly when ['aws_project_region'] is
    not an own property of the input.  When the key is absent the result is
    that error with an empty log and no output, whatever the other fields
    hold: no section has run.  When the key is present, with any value, a
    falsy one included, that error is not thrown. *)
Theorem C1_invalid_parameter_iff_region_absent (config : obj) :
  (fst (parseAWSExports config) = Throw invalidParameter
   <-> hasOwnProperty config "aws_project_region" = false)
  /\ (hasOwnProperty config "aws_project_region" = false ->
      parseAWSExports config = (Throw invalidParameter, []))
  /\ (forall v, get_own config "aws_project_region" = Some v ->
      fst (parseAWSExports config) <> Throw invalidParameter).
Proof.
  assert (P : hasOwnProperty config "aws_project_region" = true ->
              fst (parseAWSExports config) <> Throw invalidParameter).
  { intros H. unfold parseAWSExports. rewrite H. simpl.
    pose proof (only_sections config) as O.
    destruct (fst (sections config)); try discriminate.
    simpl in O. subst e. discriminate. }
  repeat split.
  - intros H. destruct (hasOwnProperty config "aws_project_region") eqn:E; auto.
    now apply P in H.
  - intros H. unfold parseAWSExports. now rewrite H.
  - intros H. unfold parseAWSExports. now rewrite H.
  - intros v H. apply P. unfold hasOwnProperty. now rewrite H.
Qed.

Lemma C1_witness :
  parseAWSExports without_region = (Throw invalidParameter, [])
  /\ fst (parseAWSExports (region_only VUndef)) <> Throw invalidParameter
  /\ fst (parseAWSExports (region_only (VStr ""))) <> Throw invalidParameter.
Proof.
  split; [|split].
  - apply (proj1 (proj2 (C1_invalid_parameter_iff_region_absent without_region))).
    reflexivity.
  - apply (proj2 (proj2 (C1_invalid_parameter_iff_region_absent (region_only VUndef)))
             VUndef).
    reflexivity.
  - apply (proj2 (proj2 (C1_invalid_parameter_iff_region_absent (region_only (VStr ""))))
             (VStr "")).
    reflexivity.
Defined.

(** C2, as amended.  On an input that has ['aws_project_region'] and whose
    fields have the shapes [well_shaped] lists, the translation returns.
    Its output has exactly the sections whose trigger holds, and a truthy
    geo block gives [Geo.LocationService] with the four properties read
    from [amazon_location_service], each [undefined] when absent there. *)
Theorem C2_total_on_well_shaped (config : obj) :
  hasOwnProperty config "aws_project_region" = true ->
  well_shaped config = true ->
  exists out log,
    parseAWSExports config = (Return out, log)
    /\ follows_triggers config out
    /\ (truthy (get config "geo") = true ->
        let service := optProp (get config "geo") "amazon_location_service" in
        get out "Geo" =
          VObj [ ("LocationService",
                  VObj [ ("maps", optProp service "maps");
                         ("geofenceCollections", optProp service "geofenceCollections");
                         ("searchIndices", optProp service "search_indices");
                         ("region", optProp service "region") ]) ]).
Proof.
  intros K W. destruct (sections_total config W) as (out & log & S).
  exists out, log. apply sections_run in S. split; [|split].
  - apply parse_run. now split.
  - eapply run_sections; eassumption.
  - intros T service.
    assert (N : nullish service = false).
    { unfold well_shaped in W. repeat (apply andb_true_iff in W as [W ?]).
      match goal with
      | G : negb (truthy (get config "geo")) || _ = true |- _ =>
          rewrite T in G; cbn [negb orb] in G; now apply negb_true_iff in G
      end. }
    destruct S as [ac1 ac2 ac3 ac4 ac5 ac7 ac8 R1 R2 R3 R4 R5 R7 R8 R9].
    apply rest_touches in R8. apply predictions_touches in R9.
    rewrite (touches_get _ _ _ _ _ R9) by discriminate.
    rewrite (touches_get _ _ _ _ _ R8) by discriminate.
    rewrite (geoSection_result _ _ T N) in R7. injection R7 as <-.
    now rewrite get_set_eq.
Qed.

Lemma C2_witness :
  exists out log,
    parseAWSExports sparse_config = (Return out, log)
    /\ get out "Geo" =
         VObj [ ("LocationService",
                 VObj [ ("maps", VUndef); ("geofenceCollections", VUndef);
                        ("searchIndices", VUndef); ("region", VUndef) ]) ].
Proof.
  destruct (C2_total_on_well_shaped sparse_config eq_refl eq_refl)
    as (out & log & P & _ & G).
  exists out, log. split; [exact P | exact (G eq_refl)].
Defined.

(** C2 as stated fails: both inputs have ['aws_project_region'] as an own
    property, one with a geo block that lacks [amazon_location_service],
    the other with a [null] entry in the bot list, and both runs throw a
    [TypeError]. *)
Lemma C2_counterexample :
  hasOwnProperty geo_empty "aws_project_region" = true
  /\ parseAWSExports geo_empty = (Throw TypeError, [])
  /\ hasOwnProperty bots_null_entry "aws_project_region" = true
  /\ parseAWSExports bots_null_entry = (Throw TypeError, []).
Proof. repeat split. Qed.

(** C3, at the input where the code leaves the claim.  The authentication
    type ['constructor'] is not in the table, yet [defaultAuthMode] is not
    ['iam'] and nothing is logged: the lookup in the plain object
    [authTypeMapping] finds [Object.prototype.constructor]. *)
Theorem C3_inherited_member_is_not_iam :
  hasOwnProperty authTypeMapping "constructor" = false
  /\ parseAWSExports constructor_config =
       (Return [ ("API",
          VObj [ ("GraphQL",
             VObj [ ("endpoint", VStr "https://api.example.com/graphql");
                    ("customEndpoint", VUndef);
                    ("apiKey", VUndef);
                    ("region", VUndef);
                    ("defaultAuthMode", VBuiltin Object_constructor) ]) ]) ],
        []).
Proof. split; reflexivity. Qed.

(** C4. In a returning run [loginWith] has an [oauth] property exactly when
    the Auth section exists (an identity-pool id or a user-pool id is
    truthy) and the legacy oauth value is truthy with at least one own key,
    which for an oauth object means a non-empty one.  [oauth.providers]
    exists only when the legacy social-provider list is a non-empty array,
    and is then that list put through [parseSocialProviders].  With [oauth]
    attached, every other property of [loginWith] is the one the Auth
    section wrote: [username], [email] and [phone] are unchanged. *)
Theorem C4_oauth_attached (config out : obj) (log : list string) :
  parseAWSExports config = (Return out, log) ->
  let trigger := truthy (get config "aws_cognito_identity_pool_id")
                 || truthy (get config "aws_user_pools_id") in
  let social := get config "aws_cognito_social_providers" in
  let login := dig (VObj out) ["Auth"; "Cognito"; "loginWith"] in
  has login "oauth" = trigger && hasOAuthConfig (get config "oauth")
  /\ (forall o, get config "oauth" = VObj o ->
      has login "oauth" = trigger && negb (Nat.eqb (List.length o) 0))
  /\ (has (optProp login "oauth") "providers" = true ->
      exists l, social = VArr l /\ l <> []
                /\ parseSocialProviders social = Return (optProp (optProp login "oauth") "providers"))
  /\ (has login "oauth" = true ->
      exists e p,
        opt_includes (get config "aws_cognito_username_attributes") "EMAIL" = Return e
        /\ opt_includes (get config "aws_cognito_username_attributes") "PHONE_NUMBER" = Return p
        /\ forall k, k <> "oauth" -> optProp login k = get (loginWith e p) k).
Proof.
  intros H trigger social login. apply parse_run in H. destruct H as [_ R].
  destruct (run_loginWith _ _ _ R) as (e & p & hs & Ee & Ep & S & No & Plain & With).
  fold login in No, Plain, With. fold trigger in No, Plain, With. fold social in S, With.
  assert (A : has login "oauth" = trigger && hasOAuthConfig (get config "oauth")).
  { destruct trigger; [|now rewrite No].
    destruct (hasOAuthConfig (get config "oauth")).
    - destruct (With eq_refl eq_refl) as (x & s & _ & _ & ->). reflexivity.
    - now rewrite Plain. }
  split; [exact A|]. split; [|split].
  - intros o Eo. rewrite A, Eo. unfold hasOAuthConfig, Object_keys. simpl.
    rewrite length_map. now destruct o.
  - intros Pr.
    destruct trigger; [|rewrite No in Pr by reflexivity; discriminate].
    destruct (hasOAuthConfig (get config "oauth"));
      [|rewrite Plain in Pr by reflexivity; discriminate].
    destruct (With eq_refl eq_refl) as (x & s & X & Sp & L).
    destruct (getOAuthConfig_shape _ _ X) as (signIn & signOut & _ & _ & ->).
    rewrite L in Pr |- *. unfold socialSpread in Sp. destruct hs.
    + destruct Sp as (providers & P & ->).
      destruct (hasSocial_array _ _ S P) as (l & El & Nl).
      exists l. repeat split; auto.
    + subst s. discriminate.
  - intros Oa. rewrite A in Oa. apply andb_true_iff in Oa. destruct Oa as [T Oa].
    destruct (With T Oa) as (x & s & _ & _ & L).
    exists e, p. repeat split; auto.
    intros k N. rewrite L.
    change (loginWith e p) with [ ("username", VBool (negb (e || p)));
                                  ("email", VBool e); ("phone", VBool p) ].
    apply String.eqb_neq in N. rewrite String.eqb_sym in N.
    cbn [optProp]. unfold get. cbn [get_own].
    destruct (String.eqb "username" k); [reflexivity|].
    destruct (String.eqb "email" k); [reflexivity|].
    destruct (String.eqb "phone" k); [reflexivity|].
    now rewrite N.
Qed.

Lemma C4_witness :
  has (dig (VObj (output_of auth_config)) ["Auth"; "Cognito"; "loginWith"]) "oauth" = true
  /\ exists l, get auth_config "aws_cognito_social_providers" = VArr l /\ l <> [].
Proof.
  pose proof (C4_oauth_attached auth_config (output_of auth_config) (log_of auth_config)
                eq_refl) as (A & _ & P & _).
  split; [exact A|].
  destruct (P eq_refl) as (l & E & N & _). exists l. now split.
Defined.

(** C5. With a truthy in-app-messaging [AWSPinpoint] block and a truthy
    push [AWSPinpoint] block, the Notifications section of a returning run
    is [{InAppMessaging: {Pinpoint}, PushNotification: {Pinpoint}}], each
    [Pinpoint] holding the [appId] and [region] of its own block; and the
    push step, run after the in-app step on any [amplifyConfig], leaves
    [Notifications.InAppMessaging] as the in-app step built it. *)
Theorem C5_both_notification_channels (config out : obj) (log : list string) :
  let InAppMessaging := dig (VObj config) ["Notifications"; "InAppMessaging"] in
  let Push := dig (VObj config) ["Notifications"; "Push"] in
  let inApp := optProp InAppMessaging "AWSPinpoint" in
  let push := optProp Push "AWSPinpoint" in
  parseAWSExports config = (Return out, log) ->
  truthy inApp = true ->
  truthy push = true ->
  get out "Notifications" =
    VObj [ ("InAppMessaging", pinpoint (optProp inApp "appId") (optProp inApp "region"));
           ("PushNotification", pinpoint (optProp push "appId") (optProp push "region")) ]
  /\ forall ac, exists ac1 ac2,
       inAppMessagingStep InAppMessaging ac = Return ac1
       /\ pushStep Push ac1 = Return ac2
       /\ dig (VObj ac2) ["Notifications"; "InAppMessaging"]
          = dig (VObj ac1) ["Notifications"; "InAppMessaging"]
       /\ dig (VObj ac1) ["Notifications"; "InAppMessaging"]
          = pinpoint (optProp inApp "appId") (optProp inApp "region").
Proof.
  intros InAppMessaging Push inApp push H Ti Tp.
  assert (Steps : forall ac,
    exists ac1 ac2,
      inAppMessagingStep InAppMessaging ac = Return ac1
      /\ pushStep Push ac1 = Return ac2
      /\ get ac2 "Notifications" =
           VObj [ ("InAppMessaging", pinpoint (optProp inApp "appId") (optProp inApp "region"));
                  ("PushNotification", pinpoint (optProp push "appId") (optProp push "region")) ]
      /\ get ac1 "Notifications" =
           VObj [ ("InAppMessaging", pinpoint (optProp inApp "appId") (optProp inApp "region")) ]).
  { intros ac. eexists. eexists.
    split; [apply inAppMessagingStep_result; exact Ti|].
    split; [apply pushStep_result; exact Tp|].
    rewrite !get_set_eq. split; reflexivity. }
  split.
  - apply parse_run in H. destruct H as [_ R].
    destruct R as [ac1 ac2 ac3 ac4 ac5 ac7 ac8 H1 H2 H3 H4 H5 H7 H8 H9].
    pose proof (storage_touches config ac5) as T6.
    apply interactions_touches in H2. apply api_touches in H3. apply auth_touches in H4.
    apply oauth_touches in H5. apply geo_touches in H7. apply rest_touches in H8.
    apply predictions_touches in H9.
    rewrite (touches_get _ _ _ _ _ H9) by discriminate.
    rewrite (touches_get _ _ _ _ _ H8) by discriminate.
    rewrite (touches_get _ _ _ _ _ H7) by discriminate.
    rewrite (touches_get _ _ _ _ _ T6) by discriminate.
    rewrite (touches_get _ _ _ _ _ H5) by discriminate.
    rewrite (touches_get _ _ _ _ _ H4) by discriminate.
    rewrite (touches_get _ _ _ _ _ H3) by discriminate.
    rewrite (touches_get _ _ _ _ _ H2) by discriminate.
    destruct (Steps (analyticsSection config [])) as (b1 & b2 & S1 & S2 & G2 & _).
    unfold notificationsSection in H1.
    rewrite !getProp_defined in H1 by now destruct (get config "Notifications").
    cbn [cbind] in H1.
    rewrite !optProp_coalesce_empty in H1 by reflexivity.
    change (optProp (get config "Notifications") "InAppMessaging") with InAppMessaging in H1.
    change (optProp (get config "Notifications") "Push") with Push in H1.
    fold inApp push in H1. rewrite Ti, S1 in H1. cbn [orb cbind] in H1.
    rewrite S2 in H1. inversion H1. subst ac1. exact G2.
  - intros ac. destruct (Steps ac) as (b1 & b2 & S1 & S2 & G2 & G1).
    exists b1, b2. unfold dig. cbn [fold_left optProp]. rewrite G1, G2.
    repeat split; assumption.
Qed.

Lemma C5_witness :
  get (output_of notifications_config) "Notifications" =
    VObj [ ("InAppMessaging",
            VObj [ ("Pinpoint", VObj [ ("appId", VStr "in-app"); ("region", VStr "us-east-1") ]) ]);
           ("PushNotification",
            VObj [ ("Pinpoint", VObj [ ("appId", VStr "push"); ("region", VStr "eu-west-1") ]) ]) ].
Proof.
  apply (proj1 (C5_both_notification_channels notifications_config
                  (output_of notifications_config) (log_of notifications_config)
                  eq_refl eq_refl eq_refl)).
Defined.

(** C6. When an Auth section is created, [loginWith.email] and
    [loginWith.phone] are booleans, true exactly when the legacy
    username-attributes list contains ['EMAIL'], respectively
    ['PHONE_NUMBER'], and [loginWith.username] is true exactly when neither
    is.  The list [['EMAIL']] gives username false, email true, phone false;
    an absent list gives username true, email false, phone false.  Without
    oauth block [loginWith] is exactly these three properties. *)
Theorem C6_loginWith_flags (config out : obj) (log : list string) :
  parseAWSExports config = (Return out, log) ->
  truthy (get config "aws_cognito_identity_pool_id")
  || truthy (get config "aws_user_pools_id") = true ->
  let attributes := get config "aws_cognito_username_attributes" in
  let login := dig (VObj out) ["Auth"; "Cognito"; "loginWith"] in
  exists email phone,
    optProp login "username" = VBool (negb (email || phone))
    /\ optProp login "email" = VBool email
    /\ optProp login "phone" = VBool phone
    /\ (forall l, attributes = VArr l ->
        (email = true <-> In (VStr "EMAIL") l)
        /\ (phone = true <-> In (VStr "PHONE_NUMBER") l))
    /\ (attributes = VArr [VStr "EMAIL"] -> email = true /\ phone = false)
    /\ (nullish attributes = true -> email = false /\ phone = false)
    /\ (hasOAuthConfig (get config "oauth") = false ->
        login = VObj [ ("username", VBool (negb (email || phone)));
                       ("email", VBool email);
                       ("phone", VBool phone) ]).
Proof.
  intros H T attributes login. apply parse_run in H. destruct H as [_ R].
  destruct (run_loginWith _ _ _ R) as (e & p & hs & Ee & Ep & _ & _ & Plain & With).
  fold login in Plain, With. fold attributes in Ee, Ep.
  exists e, p.
  assert (L : optProp login "username" = VBool (negb (e || p))
              /\ optProp login "email" = VBool e /\ optProp login "phone" = VBool p).
  { destruct (hasOAuthConfig (get config "oauth")) eqn:Oa.
    - destruct (With T eq_refl) as (x & s & _ & _ & ->). repeat split.
    - rewrite (Plain T eq_refl). repeat split. }
  destruct L as (L1 & L2 & L3).
  split; [exact L1|]. split; [exact L2|]. split; [exact L3|].
  split; [|split; [|split]].
  - intros l A. rewrite A in Ee, Ep. simpl in Ee, Ep.
    inversion Ee. inversion Ep. split; apply array_includes.
  - intros A. rewrite A in Ee, Ep. simpl in Ee, Ep. inversion Ee. inversion Ep. now split.
  - intros A. unfold opt_includes in Ee, Ep. rewrite A in Ee, Ep.
    inversion Ee. inversion Ep. now split.
  - intros Oa. exact (Plain T Oa).
Qed.

Lemma C6_witness :
  exists email phone,
    dig (VObj (output_of auth_config_plain)) ["Auth"; "Cognito"; "loginWith"]
      = VObj [ ("username", VBool (negb (email || phone)));
               ("email", VBool email);
               ("phone", VBool phone) ]
    /\ email = true /\ phone = false.
Proof.
  destruct (C6_loginWith_flags auth_config_plain (output_of auth_config_plain)
              (log_of auth_config_plain) eq_refl eq_refl)
    as (email & phone & _ & _ & _ & _ & E & _ & P).
  exists email, phone. split; [exact (P eq_refl) | exact (E eq_refl)].
Defined.

(** C7, as amended.  The input holding only ['aws_project_region'], with
    any value, gives the empty object and an empty log.  In every returning
    run each section is an own key of the output exactly when its trigger
    holds, a truthy field for all sections but Interactions, whose trigger
    is [Array.isArray] of the bot list; the output has no other key, so a
    section without trigger is absent, not empty or null. *)
Theorem C7_sections_follow_triggers :
  (forall v, parseAWSExports (region_only v) = (Return [], []))
  /\ forall config out log,
       parseAWSExports config = (Return out, log) -> follows_triggers config out.
Proof.
  split.
  - intros v. reflexivity.
  - intros config out log H. apply parse_run in H. destruct H as [_ R].
    now apply run_sections in R.
Qed.

Lemma C7_witness : follows_triggers bots_not_array [].
Proof.
  apply (proj2 C7_sections_follow_triggers bots_not_array [] []).
  reflexivity.
Defined.

(** C7 as stated fails: the bot list below is present and truthy, the run
    returns, and the output has no Interactions section. *)
Lemma C7_counterexample :
  parseAWSExports bots_not_array = (Return [], [])
  /\ hasOwnProperty [] "Interactions" <> truthy (get bots_not_array "aws_bots_config").
Proof. split; [reflexivity | discriminate]. Qed.

(** C8. On an oauth block whose two redirect fields are strings or absent,
    [getOAuthConfig] returns the record whose [scopes] is the legacy [scope]
    value as it stands and whose [redirectSignIn] and [redirectSignOut] are
    the legacy strings cut at their commas, the empty list when absent.
    Cutting at commas yields comma-free pieces that joined by commas give
    the string back; ['a,b,c'] yields [['a','b','c']]. *)
Theorem C8_oauth_extractor (oauth : value) :
  nullish oauth = false ->
  string_or_absent (optProp oauth "redirectSignIn") = true ->
  string_or_absent (optProp oauth "redirectSignOut") = true ->
  getOAuthConfig oauth =
    Return [ ("domain", optProp oauth "domain");
             ("scopes", optProp oauth "scope");
             ("redirectSignIn", split_or_empty (optProp oauth "redirectSignIn"));
             ("redirectSignOut", split_or_empty (optProp oauth "redirectSignOut"));
             ("responseType", optProp oauth "responseType") ]
  /\ (forall s, join "," (split_comma s) = s /\ forallb comma_free (split_comma s) = true)
  /\ split_comma "a,b,c" = ["a"; "b"; "c"].
Proof.
  intros N I O. split; [|split].
  - now apply getOAuthConfig_result.
  - intros s. split; [apply join_split_comma | apply split_comma_comma_free].
  - reflexivity.
Qed.

Lemma C8_witness :
  getOAuthConfig sample_oauth =
    Return [ ("domain", VStr "auth.example.com");
             ("scopes", VArr [VStr "openid"; VStr "email"]);
             ("redirectSignIn", VArr [VStr "a"; VStr "b"; VStr "c"]);
             ("redirectSignOut", VArr []);
             ("responseType", VStr "code") ].
Proof.
  apply (proj1 (C8_oauth_extractor sample_oauth eq_refl eq_refl eq_refl)).
Defined.

(** C9. [parseSocialProviders] maps a list of provider names entry by
    entry to title case: the result has one entry per input entry, in the
    input order, repeated names stay repeated, and the lengths agree;
    [['GOOGLE','FACEBOOK']] gives [['Google','Facebook']]. *)
Theorem C9_social_providers_title_case (providers : list string) :
  parseSocialProviders (VArr (map VStr providers))
    = Return (VArr (map (fun s => VStr (title_case s)) providers))
  /\ List.length (map (fun s => VStr (title_case s)) providers) = List.length providers
  /\ parseSocialProviders (VArr [VStr "GOOGLE"; VStr "FACEBOOK"])
       = Return (VArr [VStr "Google"; VStr "Facebook"])
  /\ parseSocialProviders (VArr [VStr "GOOGLE"; VStr "google"; VStr "GOOGLE"])
       = Return (VArr [VStr "Google"; VStr "Google"; VStr "Google"]).
Proof.
  repeat split; try reflexivity.
  - unfold parseSocialProviders, call_map. now rewrite mapM_titleCase.
  - apply length_map.
Qed.

(** C10. [getRedirectUrl] of the empty string is the one-element list
    [['']]; it returns the empty list exactly on [undefined] and [null]. *)
Theorem C10_empty_redirect_string :
  getRedirectUrl (VStr "") = Return (VArr [VStr ""])
  /\ forall v, getRedirectUrl v = Return (VArr []) <-> nullish v = true.
Proof.
  split; [reflexivity|].
  intros v. split.
  - destruct v; try reflexivity; unfold getRedirectUrl; simpl; try discriminate.
    + intros H. inversion H as [E]. apply map_eq_nil in E.
      now apply split_comma_nonempty in E.
    + destruct (callable (get o "split")); discriminate.
  - intros H. unfold getRedirectUrl. now rewrite H.
Qed.

Lemma C10_witness :
  getRedirectUrl VUndef = Return (VArr []) /\ getRedirectUrl VNull = Return (VArr []).
Proof.
  split.
  - apply (proj2 C10_empty_redirect_string VUndef). reflexivity.
  - apply (proj2 C10_empty_redirect_string VNull). reflexivity.
Defined.

(** * Further properties *)



(** X2. [logger.debug] is called at most once per call, and only for the
    fallback: the log of a run is empty, or it is the one fallback message
    for the authentication type, and then the GraphQL endpoint is truthy and
    the lookup of the type in [authTypeMapping] is falsy.  This holds for
    runs that throw as well, so a message emitted before a later section
    throws stays emitted. *)
Theorem X2_log_at_most_once (config : obj) :
  snd (parseAWSExports config) = []
  \/ exists key,
       truthy (get config "aws_appsync_graphqlEndpoint") = true
       /\ toString (get config "aws_appsync_authenticationType") = Return key
       /\ truthy (get authTypeMapping key) = false
       /\ snd (parseAWSExports config) = [fallbackMessage key].
Proof.
  unfold parseAWSExports.
  destruct (hasOwnProperty config "aws_project_region"); cbn [negb]; [|now left].
  destruct (sections_log config) as [E|(ac & E)]; [now left|].
  rewrite E. apply apiSection_log.
Qed.

(** X3. The translation reads the input only through the own-key test of
    ['aws_project_region'] and the twenty-nine fields it destructures: two
    inputs that agree on those give the same result, log included.  A field
    with any other name is dropped, and the value of ['aws_project_region']
    plays no part. *)
Theorem X3_only_the_fields_are_read (c1 c2 : obj) :
  hasOwnProperty c1 "aws_project_region" = hasOwnProperty c2 "aws_project_region" ->
  (forall k, In k fields -> get c1 k = get c2 k) ->
  parseAWSExports c1 = parseAWSExports c2.
Proof.
  intros R H. unfold parseAWSExports. rewrite R.
  destruct (hasOwnProperty c2 "aws_project_region"); [|reflexivity].
  now apply sections_same_fields.
Qed.

Lemma X3_witness :
  parseAWSExports with_unknown_field = parseAWSExports without_unknown_field.
Proof.
  apply (X3_only_the_fields_are_read with_unknown_field without_unknown_field).
  - reflexivity.
  - intros k I. unfold fields in I. simpl in I.
    repeat (destruct I as [<-|I]; [reflexivity|]). contradiction.
Defined.

(** X4. When an Auth section is created, [Auth.Cognito] copies
    [identityPoolId], [userPoolId], [userPoolClientId] and
    [signUpVerificationMethod] from their legacy fields as they stand, and
    [allowGuestAccess] is a boolean that is false exactly when
    [aws_mandatory_sign_in] is the string ['enable']. *)
Theorem X4_cognito_copies (config out : obj) (log : list string) :
  parseAWSExports config = (Return out, log) ->
  truthy (get config "aws_cognito_identity_pool_id")
  || truthy (get config "aws_user_pools_id") = true ->
  let Cognito := dig (VObj out) ["Auth"; "Cognito"] in
  optProp Cognito "identityPoolId" = get config "aws_cognito_identity_pool_id"
  /\ optProp Cognito "userPoolId" = get config "aws_user_pools_id"
  /\ optProp Cognito "userPoolClientId" = get config "aws_user_pools_web_client_id"
  /\ optProp Cognito "signUpVerificationMethod"
     = get config "aws_cognito_sign_up_verification_method"
  /\ exists guest,
       optProp Cognito "allowGuestAccess" = VBool guest
       /\ (guest = false <-> get config "aws_mandatory_sign_in" = VStr "enable").
Proof.
  intros H T Cognito. apply parse_run in H as [_ R].
  destruct (run_cognito _ _ _ R T) as (mfa & pf & attrs & login & _ & _ & _ & A).
  unfold Cognito, dig. cbn [fold_left]. change (optProp (VObj out) "Auth") with (get out "Auth").
  rewrite A. repeat split.
  exists (negb (is_str "enable" (get config "aws_mandatory_sign_in"))).
  split; [reflexivity|]. rewrite negb_false_iff. apply is_str_eq.
Qed.

Lemma X4_witness :
  exists guest,
    optProp (dig (VObj (output_of cognito_config)) ["Auth"; "Cognito"]) "allowGuestAccess"
      = VBool guest
    /\ guest = false.
Proof.
  destruct (X4_cognito_copies cognito_config (output_of cognito_config)
              (log_of cognito_config) eq_refl eq_refl)
    as (_ & _ & _ & _ & guest & G & I).
  exists guest. split; [exact G | exact (proj2 I eq_refl)].
Defined.

(** X5. When an Auth section is created, [Cognito.mfa] is [undefined] for
    a falsy [aws_cognito_mfa_configuration]; for a non-empty string it is
    [{status, totpEnabled, smsEnabled}] with the string lower-cased as
    status and the two flags telling whether the array
    [aws_cognito_mfa_types] contains ['TOTP'], respectively ['SMS'], both
    false when that list is absent. *)
Theorem X5_mfa (config out : obj) (log : list string) :
  parseAWSExports config = (Return out, log) ->
  truthy (get config "aws_cognito_identity_pool_id")
  || truthy (get config "aws_user_pools_id") = true ->
  let configuration := get config "aws_cognito_mfa_configuration" in
  let types := get config "aws_cognito_mfa_types" in
  let mfa := dig (VObj out) ["Auth"; "Cognito"; "mfa"] in
  (truthy configuration = false -> mfa = VUndef)
  /\ (forall s, configuration = VStr s -> s <> "" ->
      exists totp sms,
        mfa = VObj [ ("status", VStr (toLowerCase s));
                     ("totpEnabled", VBool totp);
                     ("smsEnabled", VBool sms) ]
        /\ (forall l, types = VArr l ->
            (totp = true <-> In (VStr "TOTP") l) /\ (sms = true <-> In (VStr "SMS") l))
        /\ (nullish types = true -> totp = false /\ sms = false)).
Proof.
  intros H T configuration types mfa. apply parse_run in H as [_ R].
  destruct (run_cognito _ _ _ R T) as (m & pf & attrs & login & Em & _ & _ & A).
  assert (M : mfa = m).
  { unfold mfa, dig. cbn [fold_left].
    change (optProp (VObj out) "Auth") with (get out "Auth"). now rewrite A. }
  rewrite M. unfold mfaConfig in Em. fold configuration types in Em. split.
  - intros F. rewrite F in Em. now inversion Em.
  - intros s C N. rewrite C in Em.
    assert (Ts : truthy (VStr s) = true).
    { simpl. apply negb_true_iff. now apply String.eqb_neq. }
    rewrite Ts in Em. cbn [call_toLowerCase cbind] in Em.
    apply cbind_Return in Em as (totp & Et & Em).
    apply cbind_Return in Em as (sms & Es & Em).
    inversion Em. exists totp, sms. split; [reflexivity|]. split.
    + intros l E. rewrite E in Et, Es.
      split; eapply opt_includes_array; eassumption.
    + intros E. split; eapply opt_includes_absent; eassumption.
Qed.

Lemma X5_witness :
  exists totp sms,
    dig (VObj (output_of cognito_config)) ["Auth"; "Cognito"; "mfa"]
      = VObj [ ("status", VStr "optional");
               ("totpEnabled", VBool totp);
               ("smsEnabled", VBool sms) ].
Proof.
  destruct (proj2 (X5_mfa cognito_config (output_of cognito_config)
                     (log_of cognito_config) eq_refl eq_refl)
              "OPTIONAL" eq_refl)
    as (totp & sms & E & _); [discriminate|].
  exists totp, sms. exact E.
Defined.

(** X6. When an Auth section is created, [Cognito.passwordFormat] is
    [undefined] for falsy password-protection settings; otherwise it holds
    [minLength], the legacy [passwordPolicyMinLength] as it stands, and four
    booleans telling whether the array [passwordPolicyCharacters] contains
    ['REQUIRES_LOWERCASE'], ['REQUIRES_UPPERCASE'], ['REQUIRES_NUMBERS'] and
    ['REQUIRES_SYMBOLS'], all false when that list is absent. *)
Theorem X6_password_format (config out : obj) (log : list string) :
  parseAWSExports config = (Return out, log) ->
  truthy (get config "aws_cognito_identity_pool_id")
  || truthy (get config "aws_user_pools_id") = true ->
  let settings := get config "aws_cognito_password_protection_settings" in
  let characters := optProp settings "passwordPolicyCharacters" in
  let passwordFormat := dig (VObj out) ["Auth"; "Cognito"; "passwordFormat"] in
  (truthy settings = false -> passwordFormat = VUndef)
  /\ (truthy settings = true ->
      exists lower upper numbers symbols,
        passwordFormat =
          VObj [ ("minLength", optProp settings "passwordPolicyMinLength");
                 ("requireLowercase", VBool lower);
                 ("requireUppercase", VBool upper);
                 ("requireNumbers", VBool numbers);
                 ("requireSpecialCharacters", VBool symbols) ]
        /\ (forall l, characters = VArr l ->
            (lower = true <-> In (VStr "REQUIRES_LOWERCASE") l)
            /\ (upper = true <-> In (VStr "REQUIRES_UPPERCASE") l)
            /\ (numbers = true <-> In (VStr "REQUIRES_NUMBERS") l)
            /\ (symbols = true <-> In (VStr "REQUIRES_SYMBOLS") l))
        /\ (nullish characters = true ->
            lower = false /\ upper = false /\ numbers = false /\ symbols = false)).
Proof.
  intros H T settings characters passwordFormat. apply parse_run in H as [_ R].
  destruct (run_cognito _ _ _ R T) as (m & pf & attrs & login & _ & Ep & _ & A).
  assert (M : passwordFormat = pf).
  { unfold passwordFormat, dig. cbn [fold_left].
    change (optProp (VObj out) "Auth") with (get out "Auth"). now rewrite A. }
  rewrite M. unfold passwordFormatConfig, requires in Ep. fold settings in Ep. split.
  - intros F. rewrite F in Ep. now inversion Ep.
  - intros S. rewrite S in Ep.
    rewrite !(getProp_defined settings) in Ep by now apply truthy_not_nullish.
    cbn [cbind] in Ep. fold characters in Ep.
    apply cbind_Return in Ep as (lower & El & Ep).
    apply cbind_Return in Ep as (upper & Eu & Ep).
    apply cbind_Return in Ep as (numbers & En & Ep).
    apply cbind_Return in Ep as (symbols & Es & Ep).
    inversion Ep. exists lower, upper, numbers, symbols.
    split; [reflexivity|]. split.
    + intros l E. rewrite E in El, Eu, En, Es.
      repeat split; eapply opt_includes_array; eassumption.
    + intros E. repeat split; eapply opt_includes_absent; eassumption.
Qed.

Lemma X6_witness :
  exists lower upper numbers symbols,
    dig (VObj (output_of cognito_config)) ["Auth"; "Cognito"; "passwordFormat"] =
      VObj [ ("minLength", VNum 8);
             ("requireLowercase", VBool lower);
             ("requireUppercase", VBool upper);
             ("requireNumbers", VBool numbers);
             ("requireSpecialCharacters", VBool symbols) ]
    /\ lower = true /\ upper = false /\ numbers = true /\ symbols = false.
Proof.
  destruct (proj2 (X6_password_format cognito_config (output_of cognito_config)
                     (log_of cognito_config) eq_refl eq_refl) eq_refl)
    as (lower & upper & numbers & symbols & E & L & _).
  exists lower, upper, numbers, symbols. split; [exact E|].
  destruct (L _ eq_refl) as (Il & Iu & In_ & Is).
  split; [apply Il; simpl; auto|].
  split; [destruct upper; [|reflexivity]|].
  { exfalso. destruct (proj1 Iu eq_refl) as [C|[C|[]]]; discriminate. }
  split; [apply In_; simpl; auto|].
  destruct symbols; [|reflexivity].
  exfalso. destruct (proj1 Is eq_refl) as [C|[C|[]]]; discriminate.
Defined.

(** X7. When an Auth section is created and the verification-mechanism and
    signup-attribute lists are arrays of strings or absent,
    [Cognito.userAttributes] is an object without repeated key whose keys
    are exactly the lower-cased entries of the two lists, each mapped to
    [{required: true}]: an attribute named in both lists, or twice, or in
    two spellings that differ by case, appears once. *)
Theorem X7_user_attributes (config out : obj) (log : list string) :
  parseAWSExports config = (Return out, log) ->
  truthy (get config "aws_cognito_identity_pool_id")
  || truthy (get config "aws_user_pools_id") = true ->
  let mechanisms := get config "aws_cognito_verification_mechanisms" in
  let signup := get config "aws_cognito_signup_attributes" in
  names_or_absent mechanisms = true ->
  names_or_absent signup = true ->
  exists attributes,
    dig (VObj out) ["Auth"; "Cognito"; "userAttributes"] = VObj attributes
    /\ well_formed attributes
    /\ forall k, get_own attributes k =
         if existsb (fun s => String.eqb (toLowerCase s) k)
              (names_of mechanisms ++ names_of signup)
         then Some required else None.
Proof.
  intros H T mechanisms signup V S. apply parse_run in H as [_ R].
  destruct (run_cognito _ _ _ R T) as (m & pf & attrs & login & _ & _ & Ea & A).
  exists attrs. split.
  - unfold dig. cbn [fold_left].
    change (optProp (VObj out) "Auth") with (get out "Auth"). now rewrite A.
  - now apply userAttributes_result.
Qed.

Lemma X7_witness :
  exists attributes,
    dig (VObj (output_of cognito_config)) ["Auth"; "Cognito"; "userAttributes"]
      = VObj attributes
    /\ get_own attributes "email" = Some required
    /\ get_own attributes "phone_number" = Some required
    /\ get_own attributes "EMAIL" = None.
Proof.
  destruct (X7_user_attributes cognito_config (output_of cognito_config)
              (log_of cognito_config) eq_refl eq_refl eq_refl eq_refl)
    as (attributes & E & _ & G).
  exists attributes. split; [exact E|]. rewrite !G. repeat split.
Defined.

(** X8. For an array [aws_bots_config], [Interactions.LexV1] of a
    returning run is an object without repeated key that maps a key to the
    last bot whose [name] converts to that key, and has no other key: bots
    are indexed by name, a later bot replaces an earlier one of the same
    name, and the empty array gives the empty object. *)
Theorem X8_bots_by_name (config out : obj) (log : list string) (bots : list value) :
  parseAWSExports config = (Return out, log) ->
  get config "aws_bots_config" = VArr bots ->
  exists LexV1,
    get out "Interactions" = VObj [ ("LexV1", VObj LexV1) ]
    /\ well_formed LexV1
    /\ (forall k, get_own LexV1 k = last_named k bots)
    /\ (bots = [] -> LexV1 = []).
Proof.
  intros H B. apply parse_run in H as [_ R].
  destruct (run_interactions _ _ _ _ R B) as (LexV1 & F & G).
  exists LexV1. split; [exact G|].
  destruct (fromEntries_lookup _ _ _ F (NoDup_nil _)) as [W L].
  split; [exact W|]. split.
  - intros k. rewrite L. now destruct (last_named k bots).
  - intros ->. now inversion F.
Qed.

Lemma X8_witness :
  exists LexV1,
    get (output_of api_config) "Interactions" = VObj [ ("LexV1", VObj LexV1) ]
    /\ get_own LexV1 "BookTrip"
       = Some (VObj [ ("name", VStr "BookTrip"); ("alias", VStr "prod") ])
    /\ get_own LexV1 "Unknown" = None.
Proof.
  destruct (X8_bots_by_name api_config (output_of api_config) (log_of api_config) _
              eq_refl eq_refl) as (LexV1 & E & _ & L & _).
  exists LexV1. split; [exact E|]. rewrite !L. split; reflexivity.
Defined.



(** X10. In a returning run the [API] section has the key [GraphQL]
    exactly when the GraphQL endpoint is truthy, the key [REST] exactly
    when [aws_cloud_logic_custom] is truthy, and no other key: adding the
    REST map keeps the GraphQL object and the other way round. *)
Theorem X10_graphql_and_rest_coexist (config out : obj) (log : list string) :
  parseAWSExports config = (Return out, log) ->
  let API := get out "API" in
  has API "GraphQL" = truthy (get config "aws_appsync_graphqlEndpoint")
  /\ has API "REST" = truthy (get config "aws_cloud_logic_custom")
  /\ forall k, has API k = true -> k = "GraphQL" \/ k = "REST".
Proof.
  intros H API. apply parse_run in H as [_ R].
  destruct (run_api _ _ _ R) as (key & REST & _ & _ & A).
  unfold API. rewrite A.
  destruct (truthy (get config "aws_appsync_graphqlEndpoint")),
    (truthy (get config "aws_cloud_logic_custom"));
    (split; [reflexivity|]); (split; [reflexivity|]); intros k; cbn [has];
    unfold hasOwnProperty; cbn [get_own]; try discriminate.
  - destruct (String.eqb "GraphQL" k) eqn:E; [apply String.eqb_eq in E; auto|].
    destruct (String.eqb "REST" k) eqn:E'; [apply String.eqb_eq in E'; auto | discriminate].
  - destruct (String.eqb "GraphQL" k) eqn:E;
      [apply String.eqb_eq in E; auto | discriminate].
  - destruct (String.eqb "REST" k) eqn:E; [apply String.eqb_eq in E; auto | discriminate].
Qed.

Lemma X10_witness :
  has (get (output_of api_config) "API") "GraphQL" = true
  /\ has (get (output_of api_config) "API") "REST" = true.
Proof.
  destruct (X10_graphql_and_rest_coexist api_config (output_of api_config)
              (log_of api_config) eq_refl) as (G & R & _).
  split; [exact G | exact R].
Defined.

(** X11. With a truthy GraphQL endpoint, [API.GraphQL] of a returning run
    copies [endpoint], [customEndpoint], [apiKey] and [region] from their
    legacy fields as they stand, and has the key [modelIntrospection]
    exactly when the legacy introspection schema is truthy, then with that
    schema as its value. *)
Theorem X11_graphql_copies (config out : obj) (log : list string) :
  parseAWSExports config = (Return out, log) ->
  truthy (get config "aws_appsync_graphqlEndpoint") = true ->
  let GraphQL := dig (VObj out) ["API"; "GraphQL"] in
  optProp GraphQL "endpoint" = get config "aws_appsync_graphqlEndpoint"
  /\ optProp GraphQL "customEndpoint" = get config "aws_appsync_customEndpoint"
  /\ optProp GraphQL "apiKey" = get config "aws_appsync_apiKey"
  /\ optProp GraphQL "region" = get config "aws_appsync_region"
  /\ has GraphQL "modelIntrospection" = truthy (get config "modelIntrospection")
  /\ (truthy (get config "modelIntrospection") = true ->
      optProp GraphQL "modelIntrospection" = get config "modelIntrospection").
Proof.
  intros H T GraphQL. apply parse_run in H as [_ R].
  destruct (run_api _ _ _ R) as (key & REST & _ & _ & A). rewrite T in A.
  assert (G : GraphQL = VObj (graphQLResult config key)).
  { unfold GraphQL, dig. cbn [fold_left].
    change (optProp (VObj out) "API") with (get out "API"). rewrite A.
    now destruct (truthy (get config "aws_cloud_logic_custom")). }
  rewrite G. unfold graphQLResult.
  destruct (truthy (get config "modelIntrospection")); repeat split; discriminate.
Qed.

Lemma X11_witness :
  optProp (dig (VObj (output_of api_config)) ["API"; "GraphQL"]) "modelIntrospection"
  = VObj [ ("version", VNum 1) ].
Proof.
  apply (X11_graphql_copies api_config (output_of api_config) (log_of api_config)
           eq_refl eq_refl).
  reflexivity.
Defined.

(** X12. With a truthy GraphQL endpoint and an authentication type whose
    property key [key] is not the name of a member of [Object.prototype]:
    when [key] is one of the seven table entries, [defaultAuthMode] of a
    returning run is the table value and nothing is logged; otherwise
    [defaultAuthMode] is ['iam'] and the log is the one fallback message
    naming the type.  The table is case-sensitive: ['api_key'] is no
    entry. *)
Theorem X12_default_auth_mode (config out : obj) (log : list string) (key : string) :
  parseAWSExports config = (Return out, log) ->
  truthy (get config "aws_appsync_graphqlEndpoint") = true ->
  toString (get config "aws_appsync_authenticationType") = Return key ->
  objectPrototype key = None ->
  let mode := dig (VObj out) ["API"; "GraphQL"; "defaultAuthMode"] in
  (forall v, get_own authTypeMapping key = Some v -> mode = v /\ log = [])
  /\ (get_own authTypeMapping key = None ->
      mode = VStr "iam" /\ log = [fallbackMessage key])
  /\ get_own authTypeMapping "api_key" = None
  /\ map fst authTypeMapping =
       [ "API_KEY"; "AWS_IAM"; "AMAZON_COGNITO_USER_POOLS"; "OPENID_CONNECT"; "NONE";
         "AWS_LAMBDA"; "LAMBDA" ]
  /\ map snd authTypeMapping =
       [ VStr "apiKey"; VStr "iam"; VStr "userPool"; VStr "oidc"; VStr "none";
         VStr "lambda"; VStr "lambda" ].
Proof.
  intros H T K P mode.
  pose proof (defaultAuthMode_outside_prototype _ _ _ _ H T K P) as D.
  fold mode in D. unfold hasOwnProperty, get in D. rewrite P in D.
  split; [|split; [|repeat split]].
  - intros v E. rewrite E in D. exact D.
  - intros E. rewrite E in D. exact D.
Qed.

Lemma X12_witness :
  dig (VObj (output_of api_config)) ["API"; "GraphQL"; "defaultAuthMode"] = VStr "userPool"
  /\ log_of api_config = [].
Proof.
  apply (proj1 (X12_default_auth_mode api_config (output_of api_config)
                  (log_of api_config) "AMAZON_COGNITO_USER_POOLS"
                  eq_refl eq_refl eq_refl eq_refl)
           (VStr "userPool")).
  reflexivity.
Defined.

(** X13. With a truthy predictions block, [Predictions] of a returning run
    is the block itself when [convert.speechGenerator.defaults.VoiceId] is
    falsy or missing.  When that voice id is truthy, the block, its
    [convert] and its [speechGenerator] are objects, and for objects
    without repeated key the output is the block with only
    [convert.speechGenerator.defaults] replaced, by [{voiceId}] alone:
    the voice id moves to the key [voiceId], the other defaults are
    dropped, and every other property at the three levels is kept. *)
Theorem X13_predictions (config out : obj) (log : list string) :
  parseAWSExports config = (Return out, log) ->
  let predictions := get config "predictions" in
  let voiceId := dig predictions ["convert"; "speechGenerator"; "defaults"; "VoiceId"] in
  truthy predictions = true ->
  (truthy voiceId = false -> get out "Predictions" = predictions)
  /\ (truthy voiceId = true ->
      exists p c g,
        predictions = VObj p
        /\ get p "convert" = VObj c
        /\ get c "speechGenerator" = VObj g
        /\ (well_formed p -> well_formed c -> well_formed g ->
            get out "Predictions" =
              VObj (set p "convert"
                (VObj (set c "speechGenerator"
                   (VObj (set g "defaults" (VObj [ ("voiceId", voiceId) ]))))))
            /\ dig (get out "Predictions") ["convert"; "speechGenerator"; "defaults"]
               = VObj [ ("voiceId", voiceId) ])).
Proof.
  intros H predictions voiceId T. apply parse_run in H as [_ R].
  destruct (run_last_section _ _ _ R) as (ac8 & P).
  unfold predictionsSection in P. fold predictions in P. rewrite T in P.
  rewrite getProp_defined in P
    by (unfold coalesce;
        destruct (nullish (optProp (optProp (optProp predictions "convert")
                                      "speechGenerator") "defaults")) eqn:E;
        [reflexivity | exact E]).
  cbn [cbind] in P. rewrite optProp_coalesce_empty in P by reflexivity.
  change (optProp (optProp (optProp (optProp predictions "convert") "speechGenerator")
                     "defaults") "VoiceId") with voiceId in P.
  split.
  - intros F. rewrite F in P. inversion P. apply get_set_eq.
  - intros V. rewrite V in P.
    assert (Obj : forall v k, truthy (optProp v k) = true -> k <> "length" -> k <> "name" ->
                  exists o, v = VObj o).
    { intros v k Tv N1 N2. apply String.eqb_neq in N1, N2.
      destruct v; simpl in Tv; rewrite ?N1, ?N2 in Tv; try discriminate. eauto. }
    unfold voiceId, dig in V. cbn [fold_left] in V.
    destruct (Obj _ _ V) as (d & Ed); try discriminate.
    assert (V3 : truthy (optProp (optProp (optProp predictions "convert") "speechGenerator")
                           "defaults") = true) by now rewrite Ed.
    destruct (Obj _ _ V3) as (g & Eg); try discriminate.
    assert (V2 : truthy (optProp (optProp predictions "convert") "speechGenerator") = true)
      by now rewrite Eg.
    destruct (Obj _ _ V2) as (c & Ec); try discriminate.
    assert (V1 : truthy (optProp predictions "convert") = true) by now rewrite Ec.
    destruct (Obj _ _ V1) as (p & Ep); try discriminate.
    exists p, c, g. rewrite Ep in Ec, Eg. cbn [optProp] in Ec, Eg.
    rewrite Ec in Eg. cbn [optProp] in Eg.
    split; [exact Ep|]. split; [exact Ec|]. split; [exact Eg|].
    intros Wp Wc Wg. rewrite Ep in P.
    rewrite !getProp_defined in P by reflexivity. cbn [cbind optProp] in P.
    rewrite Ec in P. rewrite getProp_defined in P by reflexivity.
    cbn [cbind optProp] in P. rewrite Eg in P.
    unfold spread in P. cbn [own_entries] in P.
    rewrite (assign_well_formed [] p Wp), (assign_well_formed [] c Wc),
      (assign_well_formed [] g Wg) in P. cbn [app] in P.
    inversion P. rewrite get_set_eq. split; [reflexivity|].
    unfold dig. cbn [fold_left optProp]. rewrite get_set_eq.
    cbn [optProp]. rewrite get_set_eq. cbn [optProp]. now rewrite get_set_eq.
Qed.

Lemma X13_witness :
  dig (get (output_of predictions_config) "Predictions")
    ["convert"; "speechGenerator"; "defaults"]
  = VObj [ ("voiceId", VStr "Ivy") ].
Proof.
  destruct (proj2 (X13_predictions predictions_config (output_of predictions_config)
                     (log_of predictions_config) eq_refl eq_refl) eq_refl)
    as (p & c & g & Ep & Ec & Eg & W).
  inversion Ep. subst p. inversion Ec. subst c. inversion Eg. subst g.
  apply W; unfold well_formed; simpl; repeat constructor; simpl; intuition discriminate.
Defined.

(** X14. When only one of the two Pinpoint blocks is truthy,
    [Notifications] of a returning run has the one matching key:
    [{InAppMessaging}] for the in-app block alone, [{PushNotification}] for
    the push block alone, each with the [appId] and [region] of its
    block. *)
Theorem X14_single_notification_channel (config out : obj) (log : list string) :
  parseAWSExports config = (Return out, log) ->
  let inApp := dig (VObj config) ["Notifications"; "InAppMessaging"; "AWSPinpoint"] in
  let push := dig (VObj config) ["Notifications"; "Push"; "AWSPinpoint"] in
  (truthy inApp = true -> truthy push = false ->
   get out "Notifications" =
     VObj [ ("InAppMessaging", pinpoint (optProp inApp "appId") (optProp inApp "region")) ])
  /\ (truthy inApp = false -> truthy push = true ->
      get out "Notifications" =
        VObj [ ("PushNotification", pinpoint (optProp push "appId") (optProp push "region")) ]).
Proof.
  intros H inApp push. apply parse_run in H as [_ R].
  destruct (run_early_sections _ _ _ R) as (ac1 & N & -> & _).
  unfold notificationsSection in N.
  rewrite !getProp_defined in N by now destruct (get config "Notifications").
  cbn [cbind] in N. rewrite !optProp_coalesce_empty in N by reflexivity.
  change (optProp (optProp (get config "Notifications") "InAppMessaging") "AWSPinpoint")
    with inApp in N.
  change (optProp (optProp (get config "Notifications") "Push") "AWSPinpoint")
    with push in N.
  assert (A : get (analyticsSection config []) "Notifications" = VUndef).
  { apply get_absent; [|reflexivity].
    rewrite (touches_other _ _ _ _ _ (analytics_touches config [])) by discriminate.
    reflexivity. }
  split; intros Ti Tp; rewrite Ti, Tp in N; cbn [orb] in N.
  - rewrite inAppMessagingStep_result in N by exact Ti. cbn [cbind] in N.
    unfold pushStep in N.
    change (optProp (optProp (get config "Notifications") "Push") "AWSPinpoint")
      with push in N.
    rewrite Tp in N. inversion N. apply get_set_eq.
  - unfold inAppMessagingStep in N.
    change (optProp (optProp (get config "Notifications") "InAppMessaging") "AWSPinpoint")
      with inApp in N.
    rewrite Ti in N. cbn [cbind] in N.
    rewrite pushStep_result in N by exact Tp. inversion N.
    rewrite get_set_eq, A. reflexivity.
Qed.

Lemma X14_witness :
  get (output_of push_only_config) "Notifications" =
    VObj [ ("PushNotification",
            VObj [ ("Pinpoint", VObj [ ("appId", VStr "push"); ("region", VUndef) ]) ]) ].
Proof.
  apply (proj2 (X14_single_notification_channel push_only_config
                  (output_of push_only_config) (log_of push_only_config) eq_refl));
    reflexivity.
Defined.

(** X15. In a returning run a truthy analytics app id gives
    [Analytics = {Pinpoint: {appId, region}}] and a truthy bucket name gives
    [Storage = {S3: {bucket, region, dangerouslyConnectToHttpEndpointForTesting}}],
    every value the legacy field as it stands, [undefined] when the field
    is missing; no later section changes either. *)
Theorem X15_analytics_and_storage (config out : obj) (log : list string) :
  parseAWSExports config = (Return out, log) ->
  (truthy (get config "aws_mobile_analytics_app_id") = true ->
   get out "Analytics" =
     VObj [ ("Pinpoint",
             VObj [ ("appId", get config "aws_mobile_analytics_app_id");
                    ("region", get config "aws_mobile_analytics_app_region") ]) ])
  /\ (truthy (get config "aws_user_files_s3_bucket") = true ->
      get out "Storage" =
        VObj [ ("S3",
                VObj [ ("bucket", get config "aws_user_files_s3_bucket");
                       ("region", get config "aws_user_files_s3_bucket_region");
                       ("dangerouslyConnectToHttpEndpointForTesting",
                        get config
                          "aws_user_files_s3_dangerously_connect_to_http_endpoint_for_testing")
                     ]) ]).
Proof.
  intros H. apply parse_run in H as [_ R]. split; intros T.
  - destruct (run_early_sections _ _ _ R) as (ac1 & _ & _ & ->).
    unfold analyticsSection. rewrite T. apply get_set_eq.
  - destruct (run_storage _ _ _ R) as (ac5 & ->).
    unfold storageSection. rewrite T. apply get_set_eq.
Qed.

Lemma X15_witness :
  get (output_of push_only_config) "Analytics" =
    VObj [ ("Pinpoint", VObj [ ("appId", VStr "analytics-app"); ("region", VUndef) ]) ]
  /\ get (output_of push_only_config) "Storage" =
       VObj [ ("S3",
               VObj [ ("bucket", VStr "bucket"); ("region", VStr "eu-west-1");
                      ("dangerouslyConnectToHttpEndpointForTesting", VUndef) ]) ].
Proof.
  destruct (X15_analytics_and_storage push_only_config (output_of push_only_config)
              (log_of push_only_config) eq_refl) as [A S].
  split; [exact (A eq_refl) | exact (S eq_refl)].
Defined.



(** X17. [getRedirectUrl] undoes joining with commas: for a non-empty list
    of comma-free URLs, the comma-joined string is cut back into exactly
    that list. *)
Theorem X17_redirect_of_joined_urls (urls : list string) :
  urls <> [] ->
  forallb comma_free urls = true ->
  getRedirectUrl (VStr (join "," urls)) = Return (VArr (map VStr urls)).
Proof.
  intros N F. unfold getRedirectUrl. cbn [nullish call_split_comma].
  now rewrite split_comma_join.
Qed.

Lemma X17_witness :
  getRedirectUrl (VStr (join "," ["https://a.example.com/"; "myapp://callback"]))
  = Return (VArr [VStr "https://a.example.com/"; VStr "myapp://callback"]).
Proof.
  apply (X17_redirect_of_joined_urls ["https://a.example.com/"; "myapp://callback"]).
  - discriminate.
  - reflexivity.
Defined.

(** X18. [getOAuthConfig] throws a [TypeError] on [undefined] and [null],
    and on an oauth block one of whose redirect fields is neither a string
    nor absent, such as an array of URLs or a number, the redirect fields
    holding no function under [split]. *)
Theorem X18_oauth_extractor_type_errors (oauth : value) :
  (nullish oauth = true -> getOAuthConfig oauth = Throw TypeError)
  /\ (nullish oauth = false ->
      no_own_method "split" (optProp oauth "redirectSignIn") = true ->
      no_own_method "split" (optProp oauth "redirectSignOut") = true ->
      string_or_absent (optProp oauth "redirectSignIn")
      && string_or_absent (optProp oauth "redirectSignOut") = false ->
      getOAuthConfig oauth = Throw TypeError).
Proof.
  split.
  - intros N. unfold getOAuthConfig, getProp. now rewrite N.
  - intros N Pi Po S. unfold getOAuthConfig.
    rewrite !getProp_defined by assumption. cbn [cbind].
    unfold getRedirectUrl, call_split_comma, no_method, string_or_absent in *.
    destruct (optProp oauth "redirectSignIn") as [| | | | | |oi|];
      cbn [nullish is_string orb andb cbind no_own_method] in *; try reflexivity;
      try (apply negb_true_iff in Pi; rewrite Pi; reflexivity);
      destruct (optProp oauth "redirectSignOut") as [| | | | | |oo|];
      cbn [nullish is_string orb andb cbind no_own_method] in *; try reflexivity;
      try discriminate;
      apply negb_true_iff in Po; rewrite Po; reflexivity.
Qed.

Lemma X18_witness :
  getOAuthConfig (VObj [ ("redirectSignIn", VArr [VStr "https://a.example.com/"]) ])
  = Throw TypeError.
Proof.
  apply (proj2 (X18_oauth_extractor_type_errors
                  (VObj [ ("redirectSignIn", VArr [VStr "https://a.example.com/"]) ])));
    reflexivity.
Defined.

(** X19. [parseSocialProviders] throws a [TypeError] on every value that
    is not an array or an object, a single provider name given as a string
    included, and on an array with an entry that is not a string, the
    entries holding no function under [toLowerCase]. *)
Theorem X19_social_providers_type_errors (providers : value) :
  (is_array providers = false -> no_own_method "map" providers = true ->
   parseSocialProviders providers = Throw TypeError)
  /\ (forall l, providers = VArr l ->
      forallb (no_own_method "toLowerCase") l = true ->
      forallb is_string l = false ->
      parseSocialProviders providers = Throw TypeError).
Proof.
  split.
  - unfold parseSocialProviders, call_map, no_method.
    destruct providers; try reflexivity; try discriminate.
    cbn [no_own_method]. intros _ N. apply negb_true_iff in N. now rewrite N.
  - intros l -> P S. unfold parseSocialProviders, call_map.
    assert (E : mapM titleCase l = Throw TypeError).
    { induction l as [|e l IH]; [discriminate|].
      cbn [forallb] in P, S. apply andb_true_iff in P as [Pe Pl].
      cbn [mapM]. destruct e; try reflexivity.
      - rewrite titleCase_string. cbn [cbind]. cbn [is_string andb] in S.
        now rewrite (IH Pl S).
      - cbn [no_own_method] in Pe. apply negb_true_iff in Pe.
        unfold titleCase, call_toLowerCase, no_method. now rewrite Pe. }
    now rewrite E.
Qed.

Lemma X19_witness :
  parseSocialProviders (VStr "GOOGLE") = Throw TypeError
  /\ parseSocialProviders (VArr [VStr "GOOGLE"; VNull]) = Throw TypeError.
Proof.
  split.
  - apply (proj1 (X19_social_providers_type_errors (VStr "GOOGLE"))); reflexivity.
  - apply (proj2 (X19_social_providers_type_errors (VArr [VStr "GOOGLE"; VNull]))
             [VStr "GOOGLE"; VNull]); reflexivity.
Defined.

(** X20. A run with a truthy geo block returns only when the block has an
    [amazon_location_service] that is not [undefined] or [null]; then
    [Geo.LocationService] holds [maps], [geofenceCollections] and [region]
    of that service as they stand and [searchIndices], read from
    [search_indices]. *)
Theorem X20_geo (config out : obj) (log : list string) :
  parseAWSExports config = (Return out, log) ->
  truthy (get config "geo") = true ->
  let service := optProp (get config "geo") "amazon_location_service" in
  nullish service = false
  /\ get out "Geo" =
       VObj [ ("LocationService",
               VObj [ ("maps", optProp service "maps");
                      ("geofenceCollections", optProp service "geofenceCollections");
                      ("searchIndices", optProp service "search_indices");
                      ("region", optProp service "region") ]) ]
  /\ has (dig (VObj out) ["Geo"; "LocationService"]) "search_indices" = false.
Proof.
  intros H T service. apply parse_run in H as [_ R].
  destruct (run_geo _ _ _ R) as (ac & ac' & G & E).
  assert (N : nullish service = false).
  { unfold geoSection in G. rewrite T in G.
    apply cbind_Return in G as (s & Es & G). apply getProp_Return in Es as [_ ->].
    apply cbind_Return in G as (m & Em & _). now apply getProp_Return in Em as [Nm _]. }
  split; [exact N|].
  rewrite (geoSection_result _ _ T N) in G. inversion G. subst ac'.
  assert (V : get out "Geo" =
              VObj [ ("LocationService",
                      VObj [ ("maps", optProp service "maps");
                             ("geofenceCollections", optProp service "geofenceCollections");
                             ("searchIndices", optProp service "search_indices");
                             ("region", optProp service "region") ]) ]).
  { rewrite E. apply get_set_eq. }
  split; [exact V|].
  unfold dig. cbn [fold_left]. change (optProp (VObj out) "Geo") with (get out "Geo").
  now rewrite V.
Qed.

Lemma X20_witness :
  get (output_of without_region_fixed) "Geo" =
    VObj [ ("LocationService",
            VObj [ ("maps", VUndef); ("geofenceCollections", VUndef);
                   ("searchIndices", VUndef); ("region", VStr "us-east-1") ]) ].
Proof.
  apply (X20_geo without_region_fixed (output_of without_region_fixed)
           (log_of without_region_fixed) eq_refl eq_refl).
Defined.



(** X22. When [loginWith.oauth] is attached in a returning run, it copies
    [domain] and [responseType] from the legacy oauth block, holds the
    legacy [scope] under the key [scopes] and has no key [scope], and its
    [redirectSignIn] and [redirectSignOut] are what [getRedirectUrl]
    returns on the legacy redirect fields. *)
Theorem X22_oauth_in_output (config out : obj) (log : list string) :
  parseAWSExports config = (Return out, log) ->
  truthy (get config "aws_cognito_identity_pool_id")
  || truthy (get config "aws_user_pools_id") = true ->
  hasOAuthConfig (get config "oauth") = true ->
  let legacy := get config "oauth" in
  let oauth := dig (VObj out) ["Auth"; "Cognito"; "loginWith"; "oauth"] in
  optProp oauth "domain" = optProp legacy "domain"
  /\ optProp oauth "responseType" = optProp legacy "responseType"
  /\ optProp oauth "scopes" = optProp legacy "scope"
  /\ has oauth "scope" = false
  /\ getRedirectUrl (optProp legacy "redirectSignIn") = Return (optProp oauth "redirectSignIn")
  /\ getRedirectUrl (optProp legacy "redirectSignOut")
     = Return (optProp oauth "redirectSignOut").
Proof.
  intros H T O legacy oauth. apply parse_run in H as [_ R].
  destruct (run_loginWith _ _ _ R) as (e & p & hs & _ & _ & _ & _ & _ & With).
  destruct (With T O) as (extracted & social & X & Sp & L).
  destruct (getOAuthConfig_shape _ _ X) as (signIn & signOut & Ei & Eo & ->).
  fold legacy in Ei, Eo |- *.
  assert (E : oauth =
              VObj (spread [ ("domain", optProp legacy "domain");
                             ("scopes", optProp legacy "scope");
                             ("redirectSignIn", signIn);
                             ("redirectSignOut", signOut);
                             ("responseType", optProp legacy "responseType") ] social)).
  { unfold oauth, dig in *. cbn [fold_left] in *. now rewrite L. }
  rewrite E, Ei, Eo. unfold socialSpread in Sp. destruct hs.
  - destruct Sp as (providers & _ & ->). repeat split.
  - subst social. repeat split.
Qed.

Lemma X22_witness :
  optProp (dig (VObj (output_of auth_config)) ["Auth"; "Cognito"; "loginWith"; "oauth"])
    "scopes"
  = VArr [VStr "openid"; VStr "email"].
Proof.
  apply (X22_oauth_in_output auth_config (output_of auth_config) (log_of auth_config)
           eq_refl eq_refl eq_refl).
Defined.
